(** * LimitlessFlashBot: risk gate, signal scorer, scanner, bundle executor

    Shallow embedding of the off-chain executor of LimitlessFlashBot.
    - ethers [BigNumber] values (wei amounts) are [Z];
    - JS [number] values that are fractional (weights, scores, ratios) are
      exact rationals [Q]; the standard deviation of [PriceMonitor] is a
      real number ([R]) because it takes a square root;
    - [Date.now()] is an explicit argument [now] (milliseconds);
    - awaited calls to external collaborators (routers, relay, Python
      scorer) are explicit oracle arguments. *)

From Stdlib Require Import ZArith QArith Qminmax String List Bool Lia.
From Stdlib Require Import Reals Qreals Lra.
From Stdlib Require Import Sorted Permutation Btauto Qabs.
From Stdlib Require Lqa.
Import ListNotations.
Open Scope string_scope.

(** ** Shared helpers: strings *)

(** Decimal rendering of a JS integer ([`${n}`]). *)
Fixpoint digits_aux (fuel n : nat) (acc : string) : string :=
  match fuel with
  | O => acc
  | S fuel' =>
      let d := Nat.modulo n 10 in
      let acc' := String (Ascii.ascii_of_nat (48 + d)) acc in
      if Nat.ltb n 10 then acc' else digits_aux fuel' (Nat.div n 10) acc'
  end.

Definition string_of_nat (n : nat) : string := digits_aux (S n) n "".

(** [s.includes(pat)]. *)
Fixpoint includes (s pat : string) : bool :=
  String.prefix pat s ||
  match s with
  | EmptyString => false
  | String _ s' => includes s' pat
  end.

(** [parseEther] and [parseUnits(_, 'gwei')] of whole numbers; the
    fractional literals of the source are written as [Z.quot] of these
    (exact: [parseEther('0.1') = ether 1 / 10]). *)
Definition ether (n : Z) : Z := n * 10 ^ 18.
Definition gwei (n : Z) : Z := n * 10 ^ 9.

(** JS [x < y] on numbers, as a boolean. *)
Definition Qlt_bool (x y : Q) : bool := negb (Qle_bool y x).

(** ** RiskManager (src/unnamed/part_007) *)
Module RiskManager.

(** [this.riskParams], constructor lines 12-23; wei amounts as [Z],
    percentages and ratios as [Q]. *)
Record RiskParams := {
  maxDailyLoss : Z;
  maxSingleTradeLoss : Z;
  minProfitThreshold : Z;
  maxSlippage : Z;
  maxGasPrice : Z;
  maxLiquidityUtilization : Z;
  cooldownPeriod : Z;
  maxConsecutiveFailures : nat;
  volatilityThreshold : Q;
  liquidityThreshold : Z
}.


Definition defaultRiskParams : RiskParams := {|
  maxDailyLoss := ether 1;
  maxSingleTradeLoss := ether 1 / 10;
  minProfitThreshold := ether 1 / 1000;
  maxSlippage := 5;
  maxGasPrice := gwei 100;
  maxLiquidityUtilization := 90;
  cooldownPeriod := 60000;
  maxConsecutiveFailures := 3;
  volatilityThreshold := 1 # 10;
  liquidityThreshold := ether 10
|}.

(** [this.riskState], constructor lines 26-36. *)
Record RiskState := {
  dailyLoss : Z;
  dailyProfit : Z;
  consecutiveFailures : nat;
  lastTradeTime : Z;
  totalTrades : nat;
  successfulTrades : nat;
  lastResetTime : Z;
  isPaused : bool;
  pauseReason : option string
}.

Definition initialRiskState (now : Z) : RiskState := {|
  dailyLoss := 0; dailyProfit := 0; consecutiveFailures := 0;
  lastTradeTime := 0; totalTrades := 0; successfulTrades := 0;
  lastResetTime := now; isPaused := false; pauseReason := None
|}.

(** The fields of an opportunity that the risk manager reads. *)
Record Opportunity := {
  amount : Z;
  estimatedProfit : Z
}.

(** An entry of [this.tradeHistory]. *)
Record Trade := {
  timestamp : Z;
  trade_success : bool;
  profit : Z;
  loss : Z
}.

(** The manager object: parameters, risk state and trade history. *)
Record Manager := {
  riskParams : RiskParams;
  riskState : RiskState;
  tradeHistory : list Trade
}.

Definition maxHistorySize : nat := 1000.

Definition initialManager (now : Z) : Manager := {|
  riskParams := defaultRiskParams;
  riskState := initialRiskState now;
  tradeHistory := []
|}.

Definition set_state (m : Manager) (s : RiskState) : Manager := {|
  riskParams := riskParams m; riskState := s; tradeHistory := tradeHistory m
|}.

(** A risk check: [{name, passed, value, threshold, weight}]; the
    display strings [value] and [threshold] are left out. *)
Record RiskCheck := {
  name : string;
  passed : bool;
  weight : Q
}.

Definition mkCheck (n : string) (p : bool) (w : Q) : RiskCheck :=
  {| name := n; passed := p; weight := w |}.

(** [estimateSlippage], lines 319-329: [amountETH] is
    [formatEther(amount)] as a rational. *)
Definition estimateSlippage (o : Opportunity) : Q :=
  let baseSlippage := 1 # 10 in
  let amountETH := amount o # Z.to_pos (10 ^ 18) in
  let sizeMultiplier := Qmin (amountETH / 10) 5 in
  baseSlippage * (1 + sizeMultiplier).

Definition checkProfitThreshold (p : RiskParams) (o : Opportunity) : RiskCheck :=
  mkCheck "profit_threshold" (minProfitThreshold p <=? estimatedProfit o)%Z (2 # 10).

Definition checkDailyLossLimit (p : RiskParams) (s : RiskState) (o : Opportunity) : RiskCheck :=
  let estimatedLoss := Z.quot (amount o * maxSlippage p) 100 in
  let potentialDailyLoss := (dailyLoss s + estimatedLoss)%Z in
  mkCheck "daily_loss_limit" (potentialDailyLoss <=? maxDailyLoss p)%Z (3 # 10).

Definition checkSingleTradeLossLimit (p : RiskParams) (o : Opportunity) : RiskCheck :=
  let estimatedLoss := Z.quot (amount o * maxSlippage p) 100 in
  mkCheck "single_trade_loss_limit" (estimatedLoss <=? maxSingleTradeLoss p)%Z (2 # 10).

Definition checkSlippage (p : RiskParams) (o : Opportunity) : RiskCheck :=
  mkCheck "slippage_check" (Qle_bool (estimateSlippage o) (inject_Z (maxSlippage p))) (15 # 100).

(** The gas price is the mocked 50 gwei of line 181. *)
Definition checkGasPrice (p : RiskParams) : RiskCheck :=
  let currentGasPrice := gwei 50 in
  mkCheck "gas_price_check" (currentGasPrice <=? maxGasPrice p)%Z (1 # 10).

(** Mocked utilisation of 75%, line 207. *)
Definition checkLiquidityUtilization (p : RiskParams) : RiskCheck :=
  let utilizationPercentage := 75%Z in
  mkCheck "liquidity_utilization" (utilizationPercentage <=? maxLiquidityUtilization p)%Z (1 # 10).

Definition checkCooldownPeriod (p : RiskParams) (s : RiskState) (now : Z) : RiskCheck :=
  let timeSinceLastTrade := (now - lastTradeTime s)%Z in
  mkCheck "cooldown_period" (cooldownPeriod p <=? timeSinceLastTrade)%Z (5 # 100).

Definition checkConsecutiveFailures (p : RiskParams) (s : RiskState) : RiskCheck :=
  mkCheck "consecutive_failures"
    (Nat.ltb (consecutiveFailures s) (maxConsecutiveFailures p)) (2 # 10).

(** Mocked volatility of 5%, line 255. *)
Definition checkVolatility (p : RiskParams) : RiskCheck :=
  let volatility := 5 # 100 in
  mkCheck "volatility_check" (Qle_bool volatility (volatilityThreshold p)) (15 # 100).

(** Mocked available liquidity of 50 ETH, line 272. *)
Definition checkLiquidityThreshold (p : RiskParams) : RiskCheck :=
  let availableLiquidity := ether 50 in
  mkCheck "liquidity_threshold" (liquidityThreshold p <=? availableLiquidity)%Z (1 # 10).

(** The [Promise.all] of lines 66-77, in the same order. *)
Definition riskChecks (p : RiskParams) (s : RiskState) (o : Opportunity) (now : Z)
  : list RiskCheck :=
  [ checkProfitThreshold p o;
    checkDailyLossLimit p s o;
    checkSingleTradeLossLimit p o;
    checkSlippage p o;
    checkGasPrice p;
    checkLiquidityUtilization p;
    checkCooldownPeriod p s now;
    checkConsecutiveFailures p s;
    checkVolatility p;
    checkLiquidityThreshold p ].

(** [calculateRiskScore], lines 287-297: the loop accumulates the two
    sums from left to right. *)
Fixpoint sumWeights (acc : Q * Q) (cs : list RiskCheck) : Q * Q :=
  match cs with
  | [] => acc
  | c :: cs' =>
      let '(totalWeight, weightedScore) := acc in
      sumWeights (totalWeight + weight c,
                  weightedScore + (if passed c then 0 else weight c)) cs'
  end.

Definition calculateRiskScore (cs : list RiskCheck) : Q :=
  let '(totalWeight, weightedScore) := sumWeights (0, 0) cs in
  if Qlt_bool 0 totalWeight then weightedScore / totalWeight else 1.

(** [getFailureReason], lines 302-314, reduced to the name of the
    primary failing check (the reduce keeps [prev] only when its weight
    is strictly larger). *)
Inductive Reason :=
| ReasonPassed
| ReasonPaused (pr : option string)
| ReasonHighRiskScore
| ReasonCheck (n : string).

Definition getFailureReason (cs : list RiskCheck) : Reason :=
  match filter (fun c => negb (passed c)) cs with
  | [] => ReasonHighRiskScore
  | c0 :: rest =>
      ReasonCheck (name (fold_left
        (fun prev current => if Qlt_bool (weight current) (weight prev)
                             then prev else current) rest c0))
  end.

Record Assessment := {
  approved : bool;
  riskScore : Q;
  reason : Reason
}.

(** [resetDailyCountersIfNeeded], lines 401-412. *)
Definition oneDayMs : Z := 24 * 60 * 60 * 1000.

Definition resetDailyCountersIfNeeded (now : Z) (s : RiskState) : RiskState :=
  let timeSinceReset := (now - lastResetTime s)%Z in
  if (oneDayMs <=? timeSinceReset)%Z then
    {| dailyLoss := 0; dailyProfit := 0;
       consecutiveFailures := consecutiveFailures s;
       lastTradeTime := lastTradeTime s; totalTrades := totalTrades s;
       successfulTrades := successfulTrades s; lastResetTime := now;
       isPaused := isPaused s; pauseReason := pauseReason s |}
  else s.

(** [assessRisk], lines 46-107: returns the updated manager (the lazy
    daily reset) and the assessment. *)
Definition assessRisk (m : Manager) (o : Opportunity) (now : Z) : Manager * Assessment :=
  let s := resetDailyCountersIfNeeded now (riskState m) in
  let m' := set_state m s in
  if isPaused s then
    (m', {| approved := false; riskScore := 1; reason := ReasonPaused (pauseReason s) |})
  else
    let cs := riskChecks (riskParams m) s o now in
    let score := calculateRiskScore cs in
    let ok := forallb passed cs && Qlt_bool score (7 # 10) in
    (m', {| approved := ok; riskScore := score;
            reason := if ok then ReasonPassed else getFailureReason cs |}).

(** [pauseSystem] and [resumeSystem], lines 382-396. *)
Definition pauseSystem (reason : string) (s : RiskState) : RiskState :=
  {| dailyLoss := dailyLoss s; dailyProfit := dailyProfit s;
     consecutiveFailures := consecutiveFailures s;
     lastTradeTime := lastTradeTime s; totalTrades := totalTrades s;
     successfulTrades := successfulTrades s; lastResetTime := lastResetTime s;
     isPaused := true; pauseReason := Some reason |}.

Definition resumeSystem (s : RiskState) : RiskState :=
  {| dailyLoss := dailyLoss s; dailyProfit := dailyProfit s;
     consecutiveFailures := 0;
     lastTradeTime := lastTradeTime s; totalTrades := totalTrades s;
     successfulTrades := successfulTrades s; lastResetTime := lastResetTime s;
     isPaused := false; pauseReason := None |}.

(** [tradeHistory.push] followed by [shift] when over the bound. *)
Definition pushHistory (h : list Trade) (t : Trade) : list Trade :=
  let h' := (h ++ [t])%list in
  if Nat.ltb maxHistorySize (length h') then tl h' else h'.

(** [recordTradeResult], lines 334-377. *)
Definition recordTradeResult (m : Manager) (o : Opportunity) (success : bool) (now : Z)
  : Manager :=
  let trade := {| timestamp := now; trade_success := success;
                  profit := if success then estimatedProfit o else 0;
                  loss := if success then 0 else estimatedProfit o |} in
  let s := riskState m in
  let p := riskParams m in
  let s' :=
    if success then
      {| dailyLoss := dailyLoss s;
         dailyProfit := (dailyProfit s + estimatedProfit o)%Z;
         consecutiveFailures := 0;
         lastTradeTime := now; totalTrades := S (totalTrades s);
         successfulTrades := S (successfulTrades s);
         lastResetTime := lastResetTime s;
         isPaused := isPaused s; pauseReason := pauseReason s |}
    else
      let failed :=
        {| dailyLoss := (dailyLoss s + estimatedProfit o)%Z;
           dailyProfit := dailyProfit s;
           consecutiveFailures := S (consecutiveFailures s);
           lastTradeTime := now; totalTrades := S (totalTrades s);
           successfulTrades := successfulTrades s;
           lastResetTime := lastResetTime s;
           isPaused := isPaused s; pauseReason := pauseReason s |} in
      if Nat.leb (maxConsecutiveFailures p) (consecutiveFailures failed) then
        pauseSystem ("Too many consecutive failures: "
                     ++ string_of_nat (consecutiveFailures failed)) failed
      else failed in
  {| riskParams := p; riskState := s'; tradeHistory := pushHistory (tradeHistory m) trade |}.

(** Sums of [calculateRiskScore] written as folds: all weights, and the
    weights of the failed checks. *)
Definition totalWeightOf (cs : list RiskCheck) : Q :=
  fold_right Qplus 0 (map weight cs).

Definition failedWeightOf (cs : list RiskCheck) : Q :=
  fold_right Qplus 0 (map (fun c => if passed c then 0 else weight c) cs).

(** The public operations of the manager that touch the risk state. *)
Inductive Op :=
| Assess (o : Opportunity) (now : Z)
| Record (o : Opportunity) (success : bool) (now : Z)
| Pause (r : string)
| Resume.

Definition step (m : Manager) (op : Op) : Manager * option Assessment :=
  match op with
  | Assess o now => let '(m', a) := assessRisk m o now in (m', Some a)
  | Record o success now => (recordTradeResult m o success now, None)
  | Pause r => (set_state m (pauseSystem r (riskState m)), None)
  | Resume => (set_state m (resumeSystem (riskState m)), None)
  end.

(** Run a sequence of operations, collecting the assessments. *)
Fixpoint run (m : Manager) (ops : list Op) : Manager * list Assessment :=
  match ops with
  | [] => (m, [])
  | op :: ops' =>
      let '(m1, a) := step m op in
      let '(m2, as_) := run m1 ops' in
      (m2, match a with Some a' => a' :: as_ | None => as_ end)
  end.

End RiskManager.

(** ** QuantumSignalProcessor (src/unnamed/part_006) *)
Module QuantumSignalProcessor.

(** The fields of an opportunity that the processor reads:
    [profitability] (a JS number) and [amount] (a BigNumber). *)
Record Opportunity := {
  profitability : Q;
  amount : Z
}.

Inductive Source := quantum | fallback.

(** The object returned by [processSignal]; [quantum_features] and
    [timestamp] are left out. *)
Record Signal := {
  signal_strength : Q;
  confidence : Q;
  source : Source
}.

(** What [runPythonScript] resolves to (it never rejects): an object
    with an [error] field (spawn error, non-zero exit, unparsable output,
    timeout), or the parsed output of the Python scorer. *)
Inductive PyResult :=
| PyError (msg : string)
| PyOutput (strength conf : Q).

(** [getFallbackSignal], lines 348-363: [parseFloat(amount.toString())]
    is the amount as a number. *)
Definition getFallbackSignal (o : Opportunity) : Signal :=
  let profitScore := Qmin (profitability o * 10) 1 in
  let amountScore := Qmin (inject_Z (amount o) / inject_Z (10 ^ 20)) 1 in
  let strength := (profitScore + amountScore) / 2 in
  let conf := Qmax (3 # 10) (Qmin (8 # 10) strength) in
  {| signal_strength := strength; confidence := conf; source := fallback |}.

(** [processSignal], lines 274-305, with the state flag
    [isInitialized] and the scorer's answer as arguments. *)
Definition processSignal (isInitialized : bool) (py : PyResult) (o : Opportunity) : Signal :=
  if negb isInitialized then getFallbackSignal o
  else match py with
       | PyError _ => getFallbackSignal o
       | PyOutput st c => {| signal_strength := st; confidence := c; source := quantum |}
       end.

(** [validateSignal], lines 417-427. *)
Definition validateSignal (s : Signal) : bool :=
  Qle_bool 0 (signal_strength s) && Qle_bool (signal_strength s) 1 &&
  Qle_bool 0 (confidence s) && Qle_bool (confidence s) 1.

(** The formula of the spec for the fallback strength,
    [clamp((profitRatio + sizeRatio)/2, 0, 1)], reading the ratios as
    [10 * profitability] and [amount / 1e20]. *)
Definition clamp (x lo hi : Q) : Q := Qmax lo (Qmin hi x).

Definition spec_fallback_strength (o : Opportunity) : Q :=
  clamp ((profitability o * 10 + inject_Z (amount o) / inject_Z (10 ^ 20)) / 2) 0 1.

End QuantumSignalProcessor.

(** ** ArbitrageCalculator (src/executor/src/arbitrage-calculator.js) *)
Module ArbitrageCalculator.

Inductive Dex := UNISWAP_V2 | SUSHISWAP | UNISWAP_V3.

(** [this.tokens]: symbol to address. *)
Definition tokens (sym : string) : option string :=
  if String.eqb sym "WETH" then Some "0xC02aaA39b223FE8D0A0e5C4F27eAD9083C756Cc2"
  else if String.eqb sym "DAI" then Some "0x6B175474E89094C44Da98b954EedeAC495271d0F"
  else if String.eqb sym "USDC" then Some "0xA0b86a33E6441E6C5E6c7c8b0E0c4B5c5c5c5c5c"
  else if String.eqb sym "USDT" then Some "0xdAC17F958D2ee523a2206206994597C13D831ec7"
  else if String.eqb sym "WBTC" then Some "0x2260FAC5E5542a773Aa44fBCfeDf7C193bc2C599"
  else None.

Definition routerAddress (d : Dex) : string :=
  match d with
  | UNISWAP_V2 => "0x7a250d5630B4cF539739dF2C5dAcb4c659F2488D"
  | SUSHISWAP => "0xd9e1cE17f2641f24aE83637ab66a2cca9C378B9F"
  | UNISWAP_V3 => "0xE592427A0AEce92De3Edee1F18E0157C05861564"
  end.

(** The router call [getAmountsOut(amountIn, [tokenIn, tokenOut])],
    last element; [None] when the call throws. *)
Definition Quote := string -> string -> Z -> Dex -> option Z.

Section WithQuote.
Variable quote : Quote.

(** [getAmountOut], lines 230-252: Uniswap V3 always yields null. *)
Definition getAmountOut (tokenIn tokenOut : string) (amountIn : Z) (dex : Dex) : option Z :=
  match dex with
  | UNISWAP_V3 => None
  | _ => quote tokenIn tokenOut amountIn dex
  end.

(** [getPrice], lines 206-225: a BigNumber is truthy even when zero;
    the price division throws (and yields null) when [amountIn = 0]. *)
Definition getPrice (tokenIn tokenOut : string) (amountIn : Z) (dex : Dex) : option (Z * Z) :=
  match getAmountOut tokenIn tokenOut amountIn dex with
  | Some amountOut =>
      if (amountIn =? 0)%Z then None
      else Some (amountOut, Z.quot (amountOut * ether 1) amountIn)
  | None => None
  end.

Record Candidate := {
  cprofit : Z;
  camount : Z;
  router1 : Dex;
  router2 : Dex
}.

(** One round trip of [calculateArbitrageProfit]: buy on [d1], sell
    the intermediate amount back on [d2]. *)
Definition roundTrip (token0 token1 : string) (amount : Z) (d1 d2 : Dex) : option Candidate :=
  match getPrice token0 token1 amount d1, getPrice token1 token0 amount d2 with
  | Some (intermediateAmount, _), Some _ =>
      match getAmountOut token1 token0 intermediateAmount d2 with
      | Some finalAmount =>
          if (amount <? finalAmount)%Z
          then Some {| cprofit := finalAmount - amount; camount := amount;
                       router1 := d1; router2 := d2 |}
          else None
      | None => None
      end
  | _, _ => None
  end.

Fixpoint option_list {A} (l : list (option A)) : list A :=
  match l with
  | [] => []
  | Some x :: l' => x :: option_list l'
  | None :: l' => option_list l'
  end.

(** [calculateArbitrageProfit], lines 133-201: the two paths, then
    [reduce] keeping [current] only when strictly better. *)
Definition calculateArbitrageProfit (token0 token1 : string) (amount : Z) : option Candidate :=
  match option_list [roundTrip token0 token1 amount UNISWAP_V2 SUSHISWAP;
                     roundTrip token0 token1 amount SUSHISWAP UNISWAP_V2] with
  | [] => None
  | c0 :: cs =>
      Some (fold_left (fun best current =>
              if (cprofit best <? cprofit current)%Z then current else best) cs c0)
  end.

Record ArbOpportunity := {
  token0 : string;
  token1 : string;
  asset : string;
  amount : Z;
  estimatedProfit : Z;
  profitability : Q;
  path_router1 : Dex;
  path_router2 : Dex;
  minProfit : Z
}.

Definition testAmounts : list Z :=
  [ether 1; ether 5; ether 10; ether 50; ether 100].

(** The loop of lines 88-99: [(maxProfit, bestOpportunity)]. *)
Definition scanAmounts (a0 a1 : string) : Z * option Candidate :=
  fold_left (fun acc amt =>
      let '(maxProfit, best) := acc in
      match calculateArbitrageProfit a0 a1 amt with
      | Some c => if (maxProfit <? cprofit c)%Z then (cprofit c, Some c) else acc
      | None => acc
      end) testAmounts (0%Z, None).

(** [findArbitrageOpportunity], lines 66-128; [formatEther] then
    [parseFloat] is the exact quotient by 1e18. *)
Definition findArbitrageOpportunity (t0 t1 : string) : option ArbOpportunity :=
  match tokens t0, tokens t1 with
  | Some a0, Some a1 =>
      let '(maxProfit, best) := scanAmounts a0 a1 in
      match best with
      | Some b =>
          if (ether 1 / 1000 <? maxProfit)%Z then
            Some {| token0 := t0; token1 := t1; asset := a0; amount := camount b;
                    estimatedProfit := maxProfit;
                    profitability := inject_Z maxProfit / inject_Z (ether 1);
                    path_router1 := router1 b; path_router2 := router2 b;
                    minProfit := Z.quot (maxProfit * 95) 100 |}
          else None
      | None => None
      end
  | _, _ => None
  end.
End WithQuote.

(** [calculateGasCosts], lines 257-267: [None] when [getGasPrice]
    throws. *)
Definition calculateGasCosts (gasPrice : option Z) : Z :=
  match gasPrice with
  | Some g => g * 300000
  | None => ether 1 / 100
  end.

(** A venue pair where Uniswap V2 quotes WETH to DAI one for one and
    SushiSwap returns 0.002 ETH more WETH than the DAI it is given. *)
Definition thinQuote : Quote := fun tin tout a d =>
  match d with
  | UNISWAP_V2 => if String.eqb tin "0xC02aaA39b223FE8D0A0e5C4F27eAD9083C756Cc2" then Some a else None
  | SUSHISWAP => if String.eqb tin "0x6B175474E89094C44Da98b954EedeAC495271d0F"
                 then Some (a + ether 1 / 500)%Z else None
  | UNISWAP_V3 => None
  end.

End ArbitrageCalculator.

(** ** FlashbotsExecutor (src/executor/src/flashbots-executor.js) *)
Module FlashbotsExecutor.

(** A transaction of the bundle, opaque here. *)
Definition Tx := string.

(** [getBundleStats(bundleHash, block)]. *)
Record BundleStats := {
  isSimulated : bool;
  isMined : bool
}.

(** The relay and the node as the executor sees them.  An [inr msg]
    answer is a call that throws, or a promise that rejects, with
    [error.message = msg]. *)
Record Relay := {
  getBlockNumber : Z + string;
  (** [prepareBundleTransactions] keeps a transaction whose gas and
      nonce could be filled in and drops (logs) the others. *)
  prepareTx : Tx -> option Tx;
  (** [flashbotsProvider.sendBundle] after [signBundle]: the
      [bundleHash] field of its answer ([None] when it is undefined),
      or the [message] of the error thrown by either call ([None] when
      it is undefined). *)
  sendBundle : list Tx -> Z -> option string + option string;
  (** [waitForBlock(block)] resolves once the block is mined, or
      rejects on its 30 s timeout or a node error. *)
  waitForBlock : Z -> unit + string;
  (** [getBundleStats(bundleHash, block)], called with whatever
      [bundleResponse.bundleHash] holds, [null] ([None]) included. *)
  getBundleStats : option string -> Z -> BundleStats + string;
  (** [getTransactionHashFromBundle] never throws (it catches). *)
  getTransactionHashFromBundle : option string -> Z -> option string
}.

(** [this.bundleStats] without the gas total. *)
Record Stats := {
  submitted : nat;
  included : nat;
  failed : nat
}.

(** The object returned by [executeBundle]. *)
Record ExecResult := {
  success : bool;
  error : option string;
  bundleHash : option string;
  txHash : option string;
  blockNumber : option Z
}.

Definition failure (msg : string) (h : option string) : ExecResult :=
  {| success := false; error := Some msg; bundleHash := h; txHash := None;
     blockNumber := None |}.

Definition notIncludedMsg : string := "Bundle not included within wait period".

(** The object [submitBundle] returns: [{bundleHash, error: null}], or
    [{bundleHash: null, error: error.message}] from its catch. *)
Record SubmitResponse := {
  respBundleHash : option string;
  respError : option string
}.

(** JavaScript truthiness of a string that may be undefined or null:
    only a non-empty string is truthy. *)
Definition truthyString (m : option string) : bool :=
  match m with
  | Some msg => negb (String.eqb msg "")
  | None => false
  end.

(** A possibly undefined string inside a template literal. *)
Definition templateString (m : option string) : string :=
  match m with
  | Some msg => msg
  | None => "undefined"
  end.

Section WithRelay.
Variable relay : Relay.

(** The [for] loop of [waitForBundleInclusion], lines 137-176,
    from block [targetBlockNumber + i]; [fuel] is the number of
    iterations left.  The list records the blocks whose inclusion
    status was queried. *)
Fixpoint inclusionLoop (h : option string) (targetBlockNumber : Z) (i fuel : nat) (st : Stats)
  : ExecResult * Stats * list Z :=
  match fuel with
  | O => (failure notIncludedMsg h, st, [])
  | S fuel' =>
      let currentBlock := (targetBlockNumber + Z.of_nat i)%Z in
      match waitForBlock relay currentBlock with
      | inr msg => (failure msg h, st, [])
      | inl tt =>
        match getBundleStats relay h currentBlock with
        | inr msg => (failure msg h, st, [currentBlock])
        | inl bs =>
            if isMined bs then
              let st' := {| submitted := submitted st; included := S (included st);
                            failed := failed st |} in
              ({| success := true; error := None; bundleHash := h;
                  txHash := getTransactionHashFromBundle relay h currentBlock;
                  blockNumber := Some currentBlock |}, st', [currentBlock])
            else
              let '(r, st', polled) := inclusionLoop h targetBlockNumber (S i) fuel' st in
              (r, st', currentBlock :: polled)
        end
      end
  end.

(** [waitForBundleInclusion(bundleResponse, targetBlockNumber,
    maxWaitBlocks = 3)]; its catch turns a rejected wait or stats call
    into a failure carrying the error message. *)
Definition waitForBundleInclusion (h : option string) (targetBlockNumber : Z) (maxWaitBlocks : nat)
    (st : Stats) : ExecResult * Stats * list Z :=
  inclusionLoop h targetBlockNumber 0 maxWaitBlocks st.

Fixpoint prepareBundleTransactions (txs : list Tx) : list Tx :=
  match txs with
  | [] => []
  | tx :: txs' =>
      match prepareTx relay tx with
      | Some tx' => tx' :: prepareBundleTransactions txs'
      | None => prepareBundleTransactions txs'
      end
  end.

Definition bumpFailed (st : Stats) : Stats :=
  {| submitted := submitted st; included := included st; failed := S (failed st) |}.

(** [submitBundle(bundle, targetBlockNumber)], lines 109-128. *)
Definition submitBundle (bundle : list Tx) (targetBlockNumber : Z) : SubmitResponse :=
  match sendBundle relay bundle targetBlockNumber with
  | inl h => {| respBundleHash := h; respError := None |}
  | inr e => {| respBundleHash := None; respError := e |}
  end.

(** Lines 27-30: a [targetBlockNumber] that is null or 0 (falsy) is
    replaced by the current block number plus one; a rejected
    [getBlockNumber] gives its error message. *)
Definition resolveTarget (target : option Z) : Z + string :=
  let target' :=
    match target with
    | Some t => if (t =? 0)%Z then None else Some t
    | None => None
    end in
  match target' with
  | Some t => inl t
  | None => match getBlockNumber relay with
            | inl b => inl (b + 1)%Z
            | inr msg => inr msg
            end
  end.

(** [executeBundle(transactions, targetBlockNumber = null)], lines
    22-66.  Every [throw] of the [try] block lands in the [catch],
    which counts a failure and returns a failure value.  The
    submission error is tested by truthiness ([if
    (bundleResponse.error)]), so an undefined or empty message goes on
    to [submitted++] and the wait, with the response's [bundleHash]. *)
Definition executeBundle (txs : list Tx) (target : option Z) (st : Stats)
  : ExecResult * Stats * list Z :=
  match resolveTarget target with
  | inr msg => (failure msg None, bumpFailed st, [])
  | inl targetBlockNumber =>
      match prepareBundleTransactions txs with
      | [] => (failure "No valid transactions in bundle" None, bumpFailed st, [])
      | bundle =>
          let bundleResponse := submitBundle bundle targetBlockNumber in
          if truthyString (respError bundleResponse) then
            (failure ("Bundle submission failed: " ++ templateString (respError bundleResponse)) None,
             bumpFailed st, [])
          else
            let st' := {| submitted := S (submitted st); included := included st;
                          failed := failed st |} in
            waitForBundleInclusion (respBundleHash bundleResponse) targetBlockNumber 3 st'
      end
  end.
End WithRelay.

End FlashbotsExecutor.

(** ** Orchestrator: the scan loop of LimitlessFlashBotExecutor
    (src/unnamed/part_008, lines 736-876) *)
Module Orchestrator.

(** The pairs of [scanForArbitrageOpportunities] and the asset an
    opportunity on each borrows ([asset: token0Address]). *)
Record Pair := { p_token0 : string; p_token1 : string }.

Definition supportedPairs : list Pair :=
  [ {| p_token0 := "WETH"; p_token1 := "DAI" |};
    {| p_token0 := "WETH"; p_token1 := "USDC" |};
    {| p_token0 := "WETH"; p_token1 := "USDT" |};
    {| p_token0 := "DAI"; p_token1 := "USDC" |};
    {| p_token0 := "DAI"; p_token1 := "USDT" |};
    {| p_token0 := "USDC"; p_token1 := "USDT" |} ].

Definition assetOf (p : Pair) : string := p_token0 p.

(** One running call of [scanForArbitrageOpportunities]: the pairs it
    has still to look at, and the asset of the [executeArbitrage] it is
    awaiting, if any. *)
Record Scan := {
  pending : list Pair;
  executing : option string
}.

Record State := {
  isRunning : bool;
  scans : list Scan
}.

(** Events of the interleaving.  [Tick] is the 2 s [setInterval]
    callback, which starts a new scan without waiting for the previous
    ones.  [Examine i go] is scan [i] handling its next pair: [go] is the
    outcome of the awaited find / score / assess chain (an opportunity
    with positive profitability, [riskAssessment.approved] and
    [confidence > 0.7]).  [Complete i] is the [executeArbitrage] of
    scan [i] returning. *)
Inductive Event :=
| Tick
| Examine (i : nat) (go : bool)
| Complete (i : nat)
| Stop.

Definition update_nth {A} (l : list A) (i : nat) (f : A -> A) : list A :=
  map (fun '(j, x) => if Nat.eqb i j then f x else x) (combine (seq 0 (length l)) l).

Definition examine (go : bool) (s : Scan) : Scan :=
  match executing s, pending s with
  | None, p :: rest =>
      {| pending := rest; executing := if go then Some (assetOf p) else None |}
  | _, _ => s
  end.

Definition complete (s : Scan) : Scan :=
  {| pending := pending s; executing := None |}.

Definition step (st : State) (e : Event) : State :=
  match e with
  | Tick =>
      if isRunning st
      then {| isRunning := true;
              scans := scans st ++ [{| pending := supportedPairs; executing := None |}] |}
      else st
  | Examine i go => {| isRunning := isRunning st; scans := update_nth (scans st) i (examine go) |}
  | Complete i => {| isRunning := isRunning st; scans := update_nth (scans st) i complete |}
  | Stop => {| isRunning := false; scans := scans st |}
  end.

Definition run (st : State) (es : list Event) : State := fold_left step es st.

Definition started : State := {| isRunning := true; scans := [] |}.

(** The executions in flight for an asset. *)
Definition inFlight (st : State) (a : string) : nat :=
  length (filter (fun s => match executing s with
                           | Some a' => String.eqb a a'
                           | None => false
                           end) (scans st)).

(** The number of [setInterval] ticks in an event trace. *)
Definition ticks (es : list Event) : nat :=
  length (filter (fun e => match e with Tick => true | _ => false end) es).

End Orchestrator.

(** ** PriceMonitor.calculateVolatility (src/executor/src/price-monitor.js) *)
Module PriceMonitor.

(** [history.slice(-limit)]: the last [limit] entries; [slice(-0)] is
    [slice(0)], the whole array. *)
Definition lastN {A} (limit : nat) (l : list A) : list A :=
  match limit with
  | O => l
  | S _ => skipn (length l - limit) l
  end.

Definition getPriceHistory (history : list Q) (limit : nat) : list Q :=
  lastN limit history.

(** The fractional returns of lines 383-386.  The model is exact on
    nonzero prices; over a zero price JavaScript divides by zero and
    yields [Infinity] or [NaN], where [Qdiv] yields 0, so results about
    [calculateVolatility] speak of the source only when no price of the
    window it reads, except possibly the last, is zero. *)
Fixpoint returns (prices : list Q) : list Q :=
  match prices with
  | p0 :: (p1 :: _) as rest => ((p1 - p0) / p0) :: returns rest
  | _ => []
  end.

Definition sumQ (l : list Q) : Q := fold_left Qplus l 0.

Definition mean (rs : list Q) : Q := sumQ rs / inject_Z (Z.of_nat (length rs)).

Definition variance (rs : list Q) : Q :=
  let m := mean rs in
  sumQ (map (fun r => (r - m) * (r - m)) rs) / inject_Z (Z.of_nat (length rs)).

(** [calculateVolatility(tokenSymbol, periods = 20)], lines 376-394, on
    the stored history of the token. *)
Definition calculateVolatility (history : list Q) (periods : nat) : R :=
  let h := getPriceHistory history periods in
  if Nat.ltb (length h) 2 then 0%R
  else
    let rs := returns h in
    match rs with
    | [] => 0%R
    | _ => sqrt (Q2R (variance rs))
    end.

End PriceMonitor.

(** ** RiskManager: trade history view (src/unnamed/part_007) *)
Module RiskManagerOps.
Import RiskManager.

(** [getTradeHistory(limit = 50)], lines 451-460:
    [tradeHistory.slice(-limit)], each trade projected to its
    timestamp, outcome, profit and loss (the fields [Trade] keeps). *)
Definition getTradeHistory (m : Manager) (limit : nat) : list Trade :=
  PriceMonitor.lastN limit (tradeHistory m).

End RiskManagerOps.

(** ** QuantumSignalProcessor.incrementVersion (src/unnamed/part_006) *)
Module SignalVersion.
Local Open Scope Z_scope.

Definition dot : Ascii.ascii := Ascii.ascii_of_nat 46.

(** [s.split('.')]. *)
Fixpoint splitDot (s : string) : list string :=
  match s with
  | EmptyString => [EmptyString]
  | String c s' =>
      let rest := splitDot s' in
      if Ascii.eqb c dot then EmptyString :: rest
      else match rest with
           | r :: rs => String c r :: rs
           | [] => [String c EmptyString]
           end
  end.

(** [parts.join('.')]; a hole of the array joins as the empty string. *)
Fixpoint joinDot (l : list string) : string :=
  match l with
  | [] => EmptyString
  | [x] => x
  | x :: l' => x ++ String dot (joinDot l')
  end.

(** [parts[2]]: [undefined] (here [None]) past the end. *)
Definition nth_part (l : list string) : option string := nth_error l 2.

(** [parts[2] = v]: writing past the end of an array of one element
    leaves a hole at index 1. *)
Definition set_part (l : list string) (v : string) : list string :=
  match l with
  | [] => [EmptyString; EmptyString; v]
  | [a] => [a; EmptyString; v]
  | [a; b] => [a; b; v]
  | a :: b :: _ :: rest => a :: b :: v :: rest
  end.

(** [parseInt(x)] with no radix, on the ASCII strings of the model:
    leading white space, an optional sign, a [0x]/[0X] prefix switching
    to base 16, then the longest run of digits of the base; [None] is
    [NaN] (no digit).  The result is exact: the model has no rounding to
    doubles, so it agrees with the source on values below 2^53, where
    JavaScript numbers are exact integers; above that, [parseInt]
    rounds and [toString] may switch to exponent notation, which the
    model does not follow. *)
Definition is_space (c : Ascii.ascii) : bool :=
  let n := Ascii.nat_of_ascii c in
  Nat.eqb n 32 || ((9 <=? n) && (n <=? 13))%nat.

Fixpoint skip_spaces (s : string) : string :=
  match s with
  | String c s' => if is_space c then skip_spaces s' else s
  | EmptyString => s
  end.

Definition digit_value (base : Z) (c : Ascii.ascii) : option Z :=
  let n := Z.of_nat (Ascii.nat_of_ascii c) in
  let v := if ((48 <=? n) && (n <=? 57))%Z then Some (n - 48)
           else if ((97 <=? n) && (n <=? 122))%Z then Some (n - 87)
           else if ((65 <=? n) && (n <=? 90))%Z then Some (n - 55)
           else None in
  match v with
  | Some d => if (d <? base)%Z then Some d else None
  | None => None
  end.

(** The value of the longest prefix of digits, accumulated in [acc];
    [None] when the prefix is empty ([seen] is false). *)
Fixpoint digits_prefix (base : Z) (s : string) (acc : Z) (seen : bool) : option Z :=
  match s with
  | String c s' =>
      match digit_value base c with
      | Some d => digits_prefix base s' (acc * base + d) true
      | None => if seen then Some acc else None
      end
  | EmptyString => if seen then Some acc else None
  end.

Definition parseInt (s : string) : option Z :=
  let s1 := skip_spaces s in
  let '(sign, s2) :=
    match s1 with
    | String c s' =>
        if Ascii.eqb c (Ascii.ascii_of_nat 45) then ((-1)%Z, s')
        else if Ascii.eqb c (Ascii.ascii_of_nat 43) then (1%Z, s')
        else (1%Z, s1)
    | EmptyString => (1%Z, s1)
    end in
  let '(base, s3) :=
    match s2 with
    | String z (String x s') =>
        if Ascii.eqb z (Ascii.ascii_of_nat 48) &&
           (Ascii.eqb x (Ascii.ascii_of_nat 120) || Ascii.eqb x (Ascii.ascii_of_nat 88))
        then (16%Z, s') else (10%Z, s2)
    | _ => (10%Z, s2)
    end in
  option_map (fun v => sign * v)%Z (digits_prefix base s3 0 false).

(** [Number.prototype.toString()] of an integer, and of [NaN]. *)
Definition string_of_Z (z : Z) : string :=
  if (z <? 0)%Z then String (Ascii.ascii_of_nat 45) (string_of_nat (Z.to_nat (- z)))
  else string_of_nat (Z.to_nat z).

Definition numberToString (x : option Z) : string :=
  match x with
  | Some z => string_of_Z z
  | None => "NaN"
  end.

(** [incrementVersion(version)], lines 396-400; [parseInt(undefined)]
    is [NaN]. *)
Definition incrementVersion (version : string) : string :=
  let parts := splitDot version in
  let p2 := match nth_part parts with
            | Some s => parseInt s
            | None => None
            end in
  joinDot (set_part parts (numberToString (option_map (fun v => v + 1)%Z p2))).

(** A string without a dot. *)
Definition no_dot (s : string) : bool :=
  forallb (fun c => negb (Ascii.eqb c dot)) (list_ascii_of_string s).

End SignalVersion.

(** ** QuantumSignalProcessor.updateModel *)
Module ModelUpdate.

(** The parsed [quantum_model.json], as [updateModel] reads it: whether
    [performance] is an object (assigning [last_training] on a missing
    one throws), and [version] ([None] when the field is absent, and
    [version.split] throws). *)
Record ModelJson := {
  performance : bool;
  version : option string
}.

(** The model file: its parsed contents, or [None] when it cannot be
    read or parsed. *)
Definition ModelFile := option ModelJson.

Inductive UpdateResult :=
| Updated (v : string)
| UpdateFailed.

(** [updateModel(trainingData)], lines 368-394; [writable] is whether
    [fs.writeFile] succeeds.  Every throw lands in the catch, which
    returns [{success: false}] and leaves the file as it was. *)
Definition updateModel (writable : bool) (f : ModelFile) : ModelFile * UpdateResult :=
  match f with
  | None => (f, UpdateFailed)
  | Some model =>
      if negb (performance model) then (f, UpdateFailed)
      else match version model with
           | None => (f, UpdateFailed)
           | Some v =>
               let v' := SignalVersion.incrementVersion v in
               if writable
               then (Some {| performance := true; version := Some v' |}, Updated v')
               else (f, UpdateFailed)
           end
  end.

(** [k] calls of [updateModel] in a row (the 6-hourly cron job). *)
Fixpoint updateModelN (k : nat) (f : ModelFile) : ModelFile :=
  match k with
  | O => f
  | S k' => updateModelN k' (fst (updateModel true f))
  end.

End ModelUpdate.

(** ** FlashbotsExecutor.calculateMinerPayment *)
Module FlashbotsExecutorOps.
Local Open Scope Z_scope.

(** [ethers.utils.parseEther('0.01')]. *)
Definition minPayment : Z := 10 ^ 16.

(** [calculateMinerPayment(expectedProfit, gasUsed)], lines 397-404;
    [gasUsed] is not read. *)
Definition calculateMinerPayment (expectedProfit gasUsed : Z) : Z :=
  let percentagePayment := Z.quot (expectedProfit * 10) 100 in
  if minPayment <? percentagePayment then percentagePayment else minPayment.

End FlashbotsExecutorOps.

(** ** ArbitrageCalculator.validateOpportunity *)
Module ArbitrageValidation.
Import ArbitrageCalculator.
Local Open Scope Z_scope.

(** [validateOpportunity(opportunity)], lines 272-303, with the gas
    price read by [calculateGasCosts] ([None] when [getGasPrice] throws)
    and [opportunity.path1[1]] as arguments.  [calculateArbitrageProfit]
    catches its own errors, so nothing reaches the outer catch. *)
Definition validateOpportunity (quote : Quote) (gasPrice : option Z)
    (o : ArbOpportunity) (path1_1 : string) : bool :=
  let gasCost := calculateGasCosts gasPrice in
  let netProfit := estimatedProfit o - gasCost in
  if netProfit <=? 0 then false
  else
    match calculateArbitrageProfit quote (asset o) path1_1 (amount o) with
    | None => false
    | Some currentOpportunity =>
        let priceTolerance := Z.quot (estimatedProfit o * 5) 100 in
        let priceDifference := Z.abs (estimatedProfit o - cprofit currentOpportunity) in
        priceDifference <=? priceTolerance
    end.

End ArbitrageValidation.

(** ** DatabaseManager *)
Module DatabaseManager.
Local Open Scope Z_scope.

(** A stored record as the filters and the sort read it: the date of its
    [timestamp] in ms (the records carry ISO date strings), and its
    [success] and [asset] fields, [None] when absent. *)
Record Row := {
  timestamp : Z;
  success : option bool;
  asset : option string
}.

(** A data file: the parsed JSON array, or [None] when the file cannot
    be read or parsed. *)
Definition File := option (list Row).

(** [readData(dataType)], lines 95-108: a read or parse error is caught
    and gives []. *)
Definition readData (f : File) : list Row :=
  match f with
  | Some l => l
  | None => []
  end.

Definition maxRecords : nat := 10000.

(** [appendData(dataType, newData)], lines 124-141: [push], then
    [splice(0, length - 10000)] over the bound.  [writable] is whether
    [writeData] succeeds; otherwise the call throws ([None]) and the file
    is unchanged. *)
Definition appendData (writable : bool) (f : File) (newData : Row) : option File :=
  let existingData := (readData f ++ [newData])%list in
  let existingData :=
    if Nat.ltb maxRecords (length existingData)
    then skipn (length existingData - maxRecords) existingData
    else existingData in
  if writable then Some (Some existingData) else None.

(** [sort((a, b) => new Date(b.timestamp) - new Date(a.timestamp))]:
    [Array.prototype.sort] is stable, so the result is the stable sort
    by decreasing date, computed here by insertion (a record goes before
    the records that are not strictly newer). *)
Fixpoint insertDesc (x : Row) (l : list Row) : list Row :=
  match l with
  | [] => [x]
  | y :: l' => if timestamp x <? timestamp y then y :: insertDesc x l' else x :: l
  end.

Fixpoint sortDesc (l : list Row) : list Row :=
  match l with
  | [] => []
  | x :: l' => insertDesc x (sortDesc l')
  end.

(** [slice(0, n)]: a negative end counts from the end. *)
Definition slice0 {A} (l : list A) (n : Z) : list A :=
  if n <? 0 then firstn (Z.to_nat (Z.of_nat (length l) + n)) l
  else firstn (Z.to_nat n) l.

(** The filters object: [startDate] and [endDate] as the dates they
    denote, [None] when absent (or falsy); [success], [None] when
    [undefined]; [asset] and [limit], whose empty string and 0 are
    falsy like an absent field. *)
Record Filters := {
  startDate : option Z;
  endDate : option Z;
  f_success : option bool;
  f_asset : string;
  limit : Z
}.

Definition noFilters : Filters :=
  {| startDate := None; endDate := None; f_success := None; f_asset := ""; limit := 0 |}.

(** [applyFilters(data, filters)], lines 286-319. *)
Definition applyFilters (data : list Row) (filters : Filters) : list Row :=
  let filtered := data in
  let filtered :=
    match startDate filters with
    | Some d => filter (fun item => d <=? timestamp item) filtered
    | None => filtered
    end in
  let filtered :=
    match endDate filters with
    | Some d => filter (fun item => timestamp item <=? d) filtered
    | None => filtered
    end in
  let filtered :=
    match f_success filters with
    | Some b => filter (fun item => match success item with
                                    | Some b' => Bool.eqb b' b
                                    | None => false
                                    end) filtered
    | None => filtered
    end in
  let filtered :=
    if String.eqb (f_asset filters) "" then filtered
    else filter (fun item => match asset item with
                             | Some a => String.eqb a (f_asset filters)
                             | None => false
                             end) filtered in
  let filtered := if limit filters =? 0 then filtered else slice0 filtered (limit filters) in
  sortDesc filtered.

(** [getExecutions(filters)], lines 228-237 (also [getOpportunities]
    and [getErrors]). *)
Definition getExecutions (f : File) (filters : Filters) : list Row :=
  applyFilters (readData f) filters.

(** [getDailyReports(limit = 30)], lines 256-269. *)
Definition getDailyReports (f : File) (limit : Z) : list Row :=
  slice0 (sortDesc (readData f)) limit.

(** The three files [cleanOldData] and [getStatistics] read. *)
Record Store := {
  executionsFile : File;
  opportunitiesFile : File;
  errorsFile : File
}.

(** One pass of the loop of [cleanOldData(daysToKeep)], lines 367-396:
    [cutoff] is [cutoffDate] in ms.  A file that loses records is
    rewritten, which throws ([None]) when it is not [writable]. *)
Definition cleanData (writable : bool) (cutoff : Z) (f : File) : option File :=
  let data := readData f in
  let filteredData := filter (fun item => cutoff <=? timestamp item) data in
  if Nat.ltb (length filteredData) (length data) then
    if writable then Some (Some filteredData) else None
  else Some f.

(** [cleanOldData]: the loop over ['executions', 'opportunities',
    'errors'].  A write that throws ends the call, after the earlier
    files were rewritten; the boolean is whether the call completed. *)
Definition cleanOldData (writable : bool) (cutoff : Z) (st : Store) : Store * bool :=
  match cleanData writable cutoff (executionsFile st) with
  | None => (st, false)
  | Some e =>
      let st1 := {| executionsFile := e; opportunitiesFile := opportunitiesFile st;
                    errorsFile := errorsFile st |} in
      match cleanData writable cutoff (opportunitiesFile st1) with
      | None => (st1, false)
      | Some o =>
          let st2 := {| executionsFile := executionsFile st1; opportunitiesFile := o;
                        errorsFile := errorsFile st1 |} in
          match cleanData writable cutoff (errorsFile st2) with
          | None => (st2, false)
          | Some r =>
              ({| executionsFile := executionsFile st2; opportunitiesFile := opportunitiesFile st2;
                  errorsFile := r |}, true)
          end
      end
  end.

(** The [total] counts of [getStatistics()], lines 324-361
    ([totalProfit], the [today] counts and [successRate] are strings
    built from these and from the profits and date strings). *)
Record Totals := {
  total_executions : nat;
  total_successfulExecutions : nat;
  total_opportunities : nat;
  total_errors : nat
}.

Definition getStatisticsTotals (st : Store) : Totals :=
  let executions := readData (executionsFile st) in
  let successfulExecutions :=
    filter (fun e => match success e with Some true => true | _ => false end) executions in
  {| total_executions := length executions;
     total_successfulExecutions := length successfulExecutions;
     total_opportunities := length (readData (opportunitiesFile st));
     total_errors := length (readData (errorsFile st)) |}.

End DatabaseManager.

(** ** The orchestrator's scan and [executeArbitrage] *)
Module OrchestratorOps.
Local Open Scope Z_scope.

(** The opportunity as [processSignal] and [assessRisk] read it. *)
Definition signalInput (o : ArbitrageCalculator.ArbOpportunity) : QuantumSignalProcessor.Opportunity :=
  {| QuantumSignalProcessor.profitability := ArbitrageCalculator.profitability o;
     QuantumSignalProcessor.amount := ArbitrageCalculator.amount o |}.

Definition riskInput (o : ArbitrageCalculator.ArbOpportunity) : RiskManager.Opportunity :=
  {| RiskManager.amount := ArbitrageCalculator.amount o;
     RiskManager.estimatedProfit := ArbitrageCalculator.estimatedProfit o |}.

(** One pass of the loop of [scanForArbitrageOpportunities], lines
    787-803: the awaited result of [findArbitrageOpportunity], the
    processor's [isInitialized] flag and its scorer's answer, and the
    risk manager at time [now].  Returns the manager and whether
    [executeArbitrage] is called. *)
Definition scanPair (m : RiskManager.Manager) (now : Z)
    (found : option ArbitrageCalculator.ArbOpportunity)
    (isInitialized : bool) (py : QuantumSignalProcessor.PyResult)
  : RiskManager.Manager * bool :=
  match found with
  | Some o =>
      if Qlt_bool 0 (ArbitrageCalculator.profitability o) then
        let quantumSignal := QuantumSignalProcessor.processSignal isInitialized py (signalInput o) in
        let '(m', riskAssessment) := RiskManager.assessRisk m (riskInput o) now in
        (m', RiskManager.approved riskAssessment &&
             Qlt_bool (7 # 10) (QuantumSignalProcessor.confidence quantumSignal))
      else (m, false)
  | None => (m, false)
  end.

(** What one pass of the loop receives. *)
Record PairInput := {
  in_found : option ArbitrageCalculator.ArbOpportunity;
  in_now : Z;
  in_isInitialized : bool;
  in_py : QuantumSignalProcessor.PyResult
}.

(** The passes of a scan, in order: the manager after them, and the
    opportunities handed to [executeArbitrage]. *)
Fixpoint scanPairs (m : RiskManager.Manager) (inputs : list PairInput)
  : RiskManager.Manager * list ArbitrageCalculator.ArbOpportunity :=
  match inputs with
  | [] => (m, [])
  | i :: rest =>
      let '(m', go) := scanPair m (in_now i) (in_found i) (in_isInitialized i) (in_py i) in
      let '(m'', executed) := scanPairs m' rest in
      (m'', match go, in_found i with
            | true, Some o => o :: executed
            | _, _ => executed
            end)
  end.

(** [this.stats] without [lastExecution]. *)
Record BotStats := {
  totalExecutions : nat;
  successfulExecutions : nat;
  totalProfit : Z
}.

(** The contract calls of [executeArbitrage]: [getAvailableLiquidity]
    and [populateTransaction.executeArbitrage]; [inr] is a rejection. *)
Record Contract := {
  getAvailableLiquidity : string -> Z + string;
  populateExecuteArbitrage : string -> Z -> FlashbotsExecutor.Tx + string
}.

(** The state [executeArbitrage] touches: the bot's stats, the
    executor's bundle stats and the executions file. *)
Record World := {
  stats : BotStats;
  bundleStats : FlashbotsExecutor.Stats;
  executions : DatabaseManager.File
}.

(** The record [logExecution] stores, lines 144-162, as the filters see
    it: [executionData] is spread after [timestamp] and has no
    [success] field. *)
Definition executionRow (o : ArbitrageCalculator.ArbOpportunity) (now : Z) : DatabaseManager.Row :=
  {| DatabaseManager.timestamp := now; DatabaseManager.success := None;
     DatabaseManager.asset := Some (ArbitrageCalculator.asset o) |}.

(** [executeArbitrage(opportunity, quantumSignal)], lines 808-875.  The
    second component is the amount passed to
    [populateTransaction.executeArbitrage], when the call gets there.
    A rejection lands in the catch, which changes no state; the
    [defaultAbiCoder.encode] of well-formed parameters and the alerts
    are left out. *)
Definition executeArbitrage (c : Contract) (relay : FlashbotsExecutor.Relay) (dbWritable : bool)
    (now : Z) (o : ArbitrageCalculator.ArbOpportunity) (w : World) : World * option Z :=
  let stats1 := {| totalExecutions := S (totalExecutions (stats w));
                   successfulExecutions := successfulExecutions (stats w);
                   totalProfit := totalProfit (stats w) |} in
  match getAvailableLiquidity c (ArbitrageCalculator.asset o) with
  | inr _ => ({| stats := stats1; bundleStats := bundleStats w; executions := executions w |}, None)
  | inl availableLiquidity =>
      let maxAmount := Z.quot (availableLiquidity * 90) 100 in
      let optimalAmount :=
        if maxAmount <? ArbitrageCalculator.amount o then maxAmount else ArbitrageCalculator.amount o in
      match populateExecuteArbitrage c (ArbitrageCalculator.asset o) optimalAmount with
      | inr _ => ({| stats := stats1; bundleStats := bundleStats w; executions := executions w |},
                  Some optimalAmount)
      | inl transaction =>
          let '(result, bs, _) := FlashbotsExecutor.executeBundle relay [transaction] None (bundleStats w) in
          if FlashbotsExecutor.success result then
            let stats2 := {| totalExecutions := totalExecutions stats1;
                             successfulExecutions := S (successfulExecutions stats1);
                             totalProfit := totalProfit stats1 + ArbitrageCalculator.estimatedProfit o |} in
            match DatabaseManager.appendData dbWritable (executions w) (executionRow o now) with
            | Some f => ({| stats := stats2; bundleStats := bs; executions := f |}, Some optimalAmount)
            | None => ({| stats := stats2; bundleStats := bs; executions := executions w |}, Some optimalAmount)
            end
          else ({| stats := stats1; bundleStats := bs; executions := executions w |}, Some optimalAmount)
      end
  end.

End OrchestratorOps.

(** ** PriceMonitor.addToHistory *)
Module PriceMonitorOps.

(** [this.priceHistory]: symbol to the prices of its entries (the
    [timestamp] of an entry is not read by [getPriceHistory]'s users). *)
Definition History := string -> option (list Q).

(** [addToHistory(tokenSymbol, price)], lines 357-371: a missing symbol
    starts from [[]]; [splice(0, length - 1000)] over the bound. *)
Definition addToHistory (h : History) (tokenSymbol : string) (price : Q) : History :=
  let history := match h tokenSymbol with Some l => l | None => [] end in
  let history := (history ++ [price])%list in
  let history :=
    if Nat.ltb 1000 (length history) then skipn (length history - 1000) history else history in
  fun s => if String.eqb s tokenSymbol then Some history else h s.

(** [getPriceHistory(tokenSymbol, limit)], lines 347-352, on the map. *)
Definition getPriceHistoryOf (h : History) (tokenSymbol : string) (limit : nat) : list Q :=
  match h tokenSymbol with
  | Some history => PriceMonitor.getPriceHistory history limit
  | None => []
  end.

End PriceMonitorOps.

(** ** PriceMonitor.getPriceDifference *)
Module PriceDifference.

(** An entry of [this.prices] as [getPriceDifference] reads it: its
    [sources] object, DEX name to an object from token symbol to price
    ([None] for [undefined]). *)
Record PriceEntry := {
  sources : string -> option (string -> option Q)
}.

Definition Prices := string -> option PriceEntry.

(** [!price]: a missing price and the price 0 are falsy. *)
Definition truthyPrice (x : option Q) : option Q :=
  match x with
  | Some q => if Qeq_bool q 0 then None else Some q
  | None => None
  end.

Record PriceDiff := {
  token0 : string;
  token1 : string;
  dex1 : string;
  dex2 : string;
  price1 : Q;
  price2 : Q;
  difference : Q;
  percentageDiff : Q;
  arbitrageOpportunity : bool
}.

(** [getPriceDifference(token0Symbol, token1Symbol, dex1, dex2)], lines
    312-342; [None] is [null]. *)
Definition getPriceDifference (prices : Prices) (token0Symbol token1Symbol dex1 dex2 : string)
  : option PriceDiff :=
  match prices token0Symbol with
  | None => None
  | Some price0 =>
      match sources price0 dex1, sources price0 dex2 with
      | Some s1, Some s2 =>
          match truthyPrice (s1 token1Symbol), truthyPrice (s2 token1Symbol) with
          | Some price1, Some price2 =>
              let difference := Qabs (price1 - price2) in
              let percentageDiff := (difference / Qmin price1 price2) * 100 in
              Some {| token0 := token0Symbol; token1 := token1Symbol; dex1 := dex1; dex2 := dex2;
                      price1 := price1; price2 := price2; difference := difference;
                      percentageDiff := percentageDiff;
                      arbitrageOpportunity := Qlt_bool (1 # 10) percentageDiff |}
          | _, _ => None
          end
      | _, _ => None
      end
  end.

End PriceDifference.

(** * Scenarios and invariants used by the properties *)

Module RiskManagerScenarios.
Import RiskManager.
Local Open Scope nat_scope.

(** The operations allowed between the failures: assessments and failed
    trade results. *)
Definition failure_or_assess (op : Op) : bool :=
  match op with
  | Assess _ _ => true
  | Record _ false _ => true
  | _ => false
  end.

Definition failures (ops : list Op) : nat :=
  length (filter (fun op => match op with Record _ false _ => true | _ => false end) ops).

(** The pause invariant once the failure limit is reached. *)
Definition paused_for_failures (m : Manager) : Prop :=
  isPaused (riskState m) = true /\
  exists r, pauseReason (riskState m) = Some r /\
            includes r "consecutive failures" = true.

Definition failure_inv (m : Manager) : Prop :=
  3 <= consecutiveFailures (riskState m) -> paused_for_failures m.

Definition opp_small : Opportunity :=
  {| amount := ether 1; estimatedProfit := ether 1 / 100 |}.

(** A risk manager whose daily window started at time 0 and that made
    1 ETH of profit in it. *)
Definition day_old_manager : Manager :=
  set_state (initialManager 0)
    {| dailyLoss := 0; dailyProfit := ether 1; consecutiveFailures := 0;
       lastTradeTime := 0; totalTrades := 1; successfulTrades := 1;
       lastResetTime := 0; isPaused := false; pauseReason := None |}.

End RiskManagerScenarios.

Module SignalScenarios.
Import QuantumSignalProcessor.
Local Open Scope Q_scope.

Definition opp_point_two : Opportunity :=
  {| profitability := 1 # 5; amount := ether 1 |}.

End SignalScenarios.

Module ScannerScenarios.
Import ArbitrageCalculator.
Local Open Scope Z_scope.

(** What the loop over the test amounts keeps: nothing and a zero
    maximum, or a candidate found at one of the test amounts whose profit
    is the maximum. *)
Definition scan_inv (quote : Quote) (a0 a1 : string) (acc : Z * option Candidate) : Prop :=
  match acc with
  | (mp, None) => mp = 0
  | (mp, Some b) => exists amt, In amt testAmounts /\
      calculateArbitrageProfit quote a0 a1 amt = Some b /\ cprofit b = mp
  end.

End ScannerScenarios.

Module ExecutorScenarios.
Import FlashbotsExecutor.
Local Open Scope Z_scope.


Definition zeroStats : Stats := {| submitted := 0; included := 0; failed := 0 |}.

Definition minedRelay : Relay := {|
  getBlockNumber := inl 100;
  prepareTx := fun tx => Some tx;
  sendBundle := fun _ _ => inl (Some "0xbundle");
  waitForBlock := fun _ => inl tt;
  getBundleStats := fun _ b => inl {| isSimulated := true; isMined := (b =? 102) |};
  getTransactionHashFromBundle := fun _ b => Some "0xtx"
|}.


End ExecutorScenarios.

(** ** Scenarios and invariants of the further properties *)

Module RiskManagerOpsSpecs.
Import RiskManager.
Local Open Scope nat_scope.

Definition counts_ok (m : Manager) : Prop :=
  successfulTrades (riskState m) <= totalTrades (riskState m).

Local Open Scope Q_scope.

Definition heavier (prev current : RiskCheck) : RiskCheck :=
  if Qlt_bool (weight current) (weight prev) then prev else current.

End RiskManagerOpsSpecs.

Module SignalVersionSpecs.

(** The digit characters. *)
Definition is_digit (c : Ascii.ascii) : bool :=
  ((48 <=? Ascii.nat_of_ascii c) && (Ascii.nat_of_ascii c <=? 57))%nat.

Definition all_digits (s : string) : bool := forallb is_digit (list_ascii_of_string s).

End SignalVersionSpecs.

Module DatabaseSpecs.
Import DatabaseManager.
Local Open Scope Z_scope.

Definition newerOrSame (a b : Row) : Prop := timestamp b <= timestamp a.

Definition matches (fs : Filters) (item : Row) : bool :=
  match startDate fs with Some d => d <=? timestamp item | None => true end &&
  match endDate fs with Some d => timestamp item <=? d | None => true end &&
  match f_success fs with
  | Some b => match success item with Some b' => Bool.eqb b' b | None => false end
  | None => true
  end &&
  (String.eqb (f_asset fs) "" ||
   match asset item with Some a => String.eqb a (f_asset fs) | None => false end).

Definition limitOnly (n : Z) : Filters :=
  {| startDate := None; endDate := None; f_success := None; f_asset := ""; limit := n |}.

Definition row (ts : Z) : Row :=
  {| timestamp := ts; success := None; asset := Some "WETH" |}.

Definition oldAndNew : Store := {|
  executionsFile := Some [row 1; row 5];
  opportunitiesFile := Some [row 2];
  errorsFile := None
|}.

Definition sinceFour : Filters :=
  {| startDate := Some 4; endDate := None; f_success := None; f_asset := ""; limit := 0 |}.

Definition successCount (l : list Row) : nat :=
  length (filter (fun e => match success e with Some true => true | _ => false end) l).

End DatabaseSpecs.

Module OrchestratorOpsSpecs.
Import OrchestratorOps.
Local Open Scope Z_scope.

(** The parts of the risk manager that only [recordTradeResult],
    [pauseSystem] and [resumeSystem] change. *)
Definition riskFrame (m : RiskManager.Manager)
  : RiskManager.RiskParams * nat * Z * nat * nat * bool * option string * list RiskManager.Trade :=
  (RiskManager.riskParams m,
   RiskManager.consecutiveFailures (RiskManager.riskState m),
   RiskManager.lastTradeTime (RiskManager.riskState m),
   RiskManager.totalTrades (RiskManager.riskState m),
   RiskManager.successfulTrades (RiskManager.riskState m),
   RiskManager.isPaused (RiskManager.riskState m),
   RiskManager.pauseReason (RiskManager.riskState m),
   RiskManager.tradeHistory m).

Definition fallbackOpportunity : ArbitrageCalculator.ArbOpportunity := {|
  ArbitrageCalculator.token0 := "WETH"; ArbitrageCalculator.token1 := "DAI";
  ArbitrageCalculator.asset := "0xC02aaA39b223FE8D0A0e5C4F27eAD9083C756Cc2";
  ArbitrageCalculator.amount := ether 100; ArbitrageCalculator.estimatedProfit := ether 1 / 10;
  ArbitrageCalculator.profitability := 1 # 10;
  ArbitrageCalculator.path_router1 := ArbitrageCalculator.UNISWAP_V2;
  ArbitrageCalculator.path_router2 := ArbitrageCalculator.SUSHISWAP;
  ArbitrageCalculator.minProfit := ether 1 / 10 * 95 / 100 |}.

Definition liquidContract : Contract := {|
  getAvailableLiquidity := fun _ => inl (ether 50);
  populateExecuteArbitrage := fun _ _ => inl "0xtx"
|}.

Definition worldWith (f : DatabaseManager.File) : World := {|
  stats := {| totalExecutions := 0; successfulExecutions := 0; totalProfit := 0 |};
  bundleStats := ExecutorScenarios.zeroStats;
  executions := f
|}.

Definition failedRow : DatabaseManager.Row :=
  {| DatabaseManager.timestamp := 5; DatabaseManager.success := Some false;
     DatabaseManager.asset := Some "WETH" |}.

Definition failedOnly : DatabaseManager.Filters :=
  {| DatabaseManager.startDate := None; DatabaseManager.endDate := None;
     DatabaseManager.f_success := Some false; DatabaseManager.f_asset := "";
     DatabaseManager.limit := 0 |}.

End OrchestratorOpsSpecs.

Module PriceDifferenceSpecs.
Import PriceDifference.
Local Open Scope Q_scope.

Definition wethPrices : Prices := fun sym =>
  if String.eqb sym "WETH" then
    Some {| sources := fun dex =>
              if String.eqb dex "uniswap_v2" then Some (fun t => if String.eqb t "DAI" then Some 2000 else None)
              else if String.eqb dex "sushiswap" then Some (fun t => if String.eqb t "DAI" then Some 2010 else None)
              else None |}
  else None.

End PriceDifferenceSpecs.

(** * Properties *)

(** ** Helper lemmas on strings and rationals *)

Lemma prefix_app : forall p x, String.prefix p (p ++ x) = true.
Proof.
  induction p as [|c p IH]; intros x; simpl.
  - destruct x; reflexivity.
  - destruct (Ascii.ascii_dec c c) as [_|n]; [apply IH | congruence].
Qed.

Lemma includes_consecutive_failures : forall x,
  includes ("Too many consecutive failures: " ++ x) "consecutive failures" = true.
Proof.
  intros x. simpl. reflexivity.
Qed.

Lemma Qlt_bool_iff : forall x y, Qlt_bool x y = true <-> x < y.
Proof.
  intros x y. unfold Qlt_bool. rewrite negb_true_iff. split.
  - intros H. apply Qnot_le_lt. intros Hle. apply Qle_bool_iff in Hle. congruence.
  - intros H. destruct (Qle_bool y x) eqn:E; [|reflexivity].
    apply Qle_bool_iff in E. exfalso. apply (Qlt_not_le x y); assumption.
Qed.

(** ** RiskManager: pause and resume *)
Module RiskManagerProofs.
Import RiskManager RiskManagerScenarios.
Local Open Scope nat_scope.

Lemma run_cons_fst : forall m op ops,
  fst (run m (op :: ops)) = fst (run (fst (step m op)) ops).
Proof.
  intros m op ops. simpl.
  destruct (step m op) as [m1 a]; simpl.
  destruct (run m1 ops) as [m2 as_]; reflexivity.
Qed.

Lemma run_cons_snd : forall m op ops a,
  In a (snd (run m (op :: ops))) ->
  snd (step m op) = Some a \/ In a (snd (run (fst (step m op)) ops)).
Proof.
  intros m op ops a. simpl.
  destruct (step m op) as [m1 [a1|]]; simpl;
  destruct (run m1 ops) as [m2 as_]; simpl; intros H.
  - destruct H as [<-|H]; [left; reflexivity | right; exact H].
  - right; exact H.
Qed.

Lemma reset_isPaused : forall now s,
  isPaused (resetDailyCountersIfNeeded now s) = isPaused s.
Proof.
  intros now s. unfold resetDailyCountersIfNeeded.
  destruct (_ <=? _)%Z; reflexivity.
Qed.

Lemma reset_pauseReason : forall now s,
  pauseReason (resetDailyCountersIfNeeded now s) = pauseReason s.
Proof.
  intros now s. unfold resetDailyCountersIfNeeded.
  destruct (_ <=? _)%Z; reflexivity.
Qed.

Lemma reset_consecutiveFailures : forall now s,
  consecutiveFailures (resetDailyCountersIfNeeded now s) = consecutiveFailures s.
Proof.
  intros now s. unfold resetDailyCountersIfNeeded.
  destruct (_ <=? _)%Z; reflexivity.
Qed.

Lemma assess_fst : forall m o now,
  fst (assessRisk m o now) = set_state m (resetDailyCountersIfNeeded now (riskState m)).
Proof.
  intros m o now. unfold assessRisk. destruct (isPaused _); reflexivity.
Qed.

Lemma step_assess_fst : forall m o now,
  fst (step m (Assess o now)) = fst (assessRisk m o now).
Proof.
  intros m o now. simpl. destruct (assessRisk m o now); reflexivity.
Qed.

Lemma step_riskParams : forall m op, riskParams (fst (step m op)) = riskParams m.
Proof.
  intros m [o now|o [|] now|r|]; try reflexivity.
  rewrite step_assess_fst, assess_fst. reflexivity.
Qed.

(** Only [Resume] clears the pause flag. *)
Lemma step_keeps_pause : forall m op,
  op <> Resume -> isPaused (riskState m) = true ->
  isPaused (riskState (fst (step m op))) = true.
Proof.
  intros m [o now|o [|] now|r|] Hop Hp.
  - rewrite step_assess_fst, assess_fst. simpl. rewrite reset_isPaused. exact Hp.
  - exact Hp.
  - simpl. destruct (Nat.leb _ _); [reflexivity | exact Hp].
  - reflexivity.
  - congruence.
Qed.

(** A paused manager denies every assessment. *)
Lemma assess_paused : forall m o now,
  isPaused (riskState m) = true -> approved (snd (assessRisk m o now)) = false.
Proof.
  intros m o now Hp. unfold assessRisk.
  rewrite reset_isPaused, Hp. reflexivity.
Qed.

Lemma step_assessment_paused : forall m op a,
  isPaused (riskState m) = true -> snd (step m op) = Some a -> approved a = false.
Proof.
  intros m [o now|o s now|r|] a Hp Ha; simpl in Ha; try discriminate.
  destruct (assessRisk m o now) as [m' a'] eqn:E. simpl in Ha.
  injection Ha as <-. pose proof (assess_paused m o now Hp) as H.
  rewrite E in H. exact H.
Qed.

Lemma run_paused_denies : forall rest m,
  (forall op, In op rest -> op <> Resume) ->
  isPaused (riskState m) = true ->
  forall a, In a (snd (run m rest)) -> approved a = false.
Proof.
  induction rest as [|op rest IH]; intros m Hnr Hp a Ha.
  - contradiction.
  - apply run_cons_snd in Ha as [Ha|Ha].
    + eapply step_assessment_paused; eassumption.
    + apply (IH (fst (step m op))); [| | exact Ha].
      * intros op' Hin. apply Hnr. right. exact Hin.
      * apply step_keeps_pause; [apply Hnr; left; reflexivity | exact Hp].
Qed.

Lemma record_failure_cf : forall m o now,
  consecutiveFailures (riskState (recordTradeResult m o false now))
  = S (consecutiveFailures (riskState m)).
Proof.
  intros m o now. unfold recordTradeResult. simpl.
  destruct (Nat.leb _ _); reflexivity.
Qed.

Lemma record_failure_pauses : forall m o now,
  maxConsecutiveFailures (riskParams m) = 3 ->
  3 <= consecutiveFailures (riskState (recordTradeResult m o false now)) ->
  paused_for_failures (recordTradeResult m o false now).
Proof.
  intros m o now Hmax Hcf. rewrite record_failure_cf in Hcf.
  unfold recordTradeResult, paused_for_failures. simpl. rewrite Hmax.
  replace (Nat.leb 3 (S (consecutiveFailures (riskState m)))) with true
    by (symmetry; apply Nat.leb_le; exact Hcf).
  simpl. split; [reflexivity|].
  eexists. split; [reflexivity|]. apply includes_consecutive_failures.
Qed.

Lemma assess_keeps_inv : forall m o now,
  failure_inv m -> failure_inv (fst (step m (Assess o now))).
Proof.
  intros m o now H. unfold failure_inv, paused_for_failures in *.
  rewrite step_assess_fst, assess_fst. simpl.
  rewrite reset_consecutiveFailures, reset_isPaused, reset_pauseReason.
  exact H.
Qed.

Lemma run_failures : forall ops m,
  maxConsecutiveFailures (riskParams m) = 3 ->
  forallb failure_or_assess ops = true ->
  consecutiveFailures (riskState (fst (run m ops)))
    = consecutiveFailures (riskState m) + failures ops /\
  riskParams (fst (run m ops)) = riskParams m /\
  (failure_inv m \/ 1 <= failures ops -> failure_inv (fst (run m ops))).
Proof.
  induction ops as [|op ops IH]; intros m Hmax Hok.
  - simpl. split; [unfold failures; simpl; lia|]. split; [reflexivity|].
    intros [H|H]; [exact H | unfold failures in H; simpl in H; lia].
  - simpl in Hok. apply andb_true_iff in Hok as [Hop Hok].
    rewrite run_cons_fst.
    assert (Hmax' : maxConsecutiveFailures (riskParams (fst (step m op))) = 3)
      by (rewrite step_riskParams; exact Hmax).
    destruct (IH (fst (step m op)) Hmax' Hok) as (Hcf & Hp & Hinv).
    rewrite Hp, step_riskParams. split; [|split; [reflexivity|]].
    + rewrite Hcf. destruct op as [o now|o [|] now|r|]; try discriminate.
      * rewrite step_assess_fst, assess_fst. simpl.
        rewrite reset_consecutiveFailures. reflexivity.
      * simpl fst. rewrite record_failure_cf. unfold failures. simpl. lia.
    + intros Hpre. apply Hinv.
      destruct op as [o now|o [|] now|r|]; try discriminate.
      * destruct Hpre as [H|H]; [left; apply assess_keeps_inv; exact H | right; exact H].
      * left. intros H3. apply record_failure_pauses; assumption.
Qed.

(** C1: once three failed [recordTradeResult] calls have happened (with
    only assessments in between and no success, pause or resume), the
    manager is paused with a reason containing "consecutive failures";
    from then on every [assessRisk] returns [approved = false] until
    [resumeSystem] is called, which clears the pause; and a successful
    [recordTradeResult] always sets [consecutiveFailures] to 0. *)
Theorem riskGate_pause_after_consecutive_failures :
  forall (m : Manager) (ops : list Op),
  maxConsecutiveFailures (riskParams m) = 3 ->
  forallb failure_or_assess ops = true ->
  3 <= failures ops ->
  let m' := fst (run m ops) in
  isPaused (riskState m') = true /\
  (exists r, pauseReason (riskState m') = Some r /\
             includes r "consecutive failures" = true) /\
  (forall rest, (forall op, In op rest -> op <> Resume) ->
     forall a, In a (snd (run m' rest)) -> approved a = false) /\
  isPaused (riskState (fst (step m' Resume))) = false /\
  (forall o now, consecutiveFailures (riskState (recordTradeResult m o true now)) = 0).
Proof.
  intros m ops Hmax Hok H3 m'.
  destruct (run_failures ops m Hmax Hok) as (Hcf & _ & Hinv).
  assert (Hp : paused_for_failures m').
  { apply Hinv; [right; lia | unfold m'; rewrite Hcf; lia]. }
  destruct Hp as [Hp Hr].
  split; [exact Hp|]. split; [exact Hr|]. split; [|split].
  - intros rest Hnr. apply run_paused_denies; assumption.
  - reflexivity.
  - intros o now. reflexivity.
Qed.

Lemma riskGate_pause_after_consecutive_failures_witness :
  let m := initialManager 0 in
  let ops := [Record opp_small false 10; Assess opp_small 100000;
              Record opp_small false 20; Record opp_small false 30] in
  (maxConsecutiveFailures (riskParams m) = 3 /\
   forallb failure_or_assess ops = true /\ 3 <= failures ops) /\
  (let m' := fst (run m ops) in
   isPaused (riskState m') = true /\
   (exists r, pauseReason (riskState m') = Some r /\
              includes r "consecutive failures" = true) /\
   (forall rest, (forall op, In op rest -> op <> Resume) ->
      forall a, In a (snd (run m' rest)) -> approved a = false) /\
   isPaused (riskState (fst (step m' Resume))) = false /\
   (forall o now, consecutiveFailures (riskState (recordTradeResult m o true now)) = 0)).
Proof.
  intros m ops.
  assert (H1 : maxConsecutiveFailures (riskParams m) = 3) by reflexivity.
  assert (H2 : forallb failure_or_assess ops = true) by reflexivity.
  assert (H3 : 3 <= failures ops) by (vm_compute; lia).
  split; [split; [exact H1 | split; [exact H2 | exact H3]]|].
  exact (riskGate_pause_after_consecutive_failures m ops H1 H2 H3).
Defined.

(** C10: [resumeSystem] clears the pause flag and reason, sets
    [consecutiveFailures] to 0 and leaves every other field of the risk
    state as it was; on the manager it leaves the parameters and the
    trade history unchanged. *)
Theorem resumeSystem_frame : forall m : Manager,
  let m' := fst (step m Resume) in
  let s := riskState m in
  let s' := riskState m' in
  isPaused s' = false /\ pauseReason s' = None /\ consecutiveFailures s' = 0 /\
  dailyLoss s' = dailyLoss s /\ dailyProfit s' = dailyProfit s /\
  lastTradeTime s' = lastTradeTime s /\ totalTrades s' = totalTrades s /\
  successfulTrades s' = successfulTrades s /\ lastResetTime s' = lastResetTime s /\
  riskParams m' = riskParams m /\ tradeHistory m' = tradeHistory m.
Proof.
  intros m m' s s'. subst m' s s'. simpl.
  repeat split.
Qed.

(** ** RiskManager: the weighted checklist *)
Local Open Scope Q_scope.

Lemma sumWeights_spec : forall cs a b,
  fst (sumWeights (a, b) cs) == a + totalWeightOf cs /\
  snd (sumWeights (a, b) cs) == b + failedWeightOf cs.
Proof.
  induction cs as [|c cs IH]; intros a b; simpl.
  - unfold totalWeightOf, failedWeightOf. simpl. split; ring.
  - destruct (IH (a + weight c) (b + (if passed c then 0 else weight c))) as [H1 H2].
    unfold totalWeightOf, failedWeightOf in *. simpl.
    rewrite H1, H2. split; ring.
Qed.

Lemma failedWeight_bounds : forall cs,
  (forall c, In c cs -> 0 <= weight c) ->
  0 <= failedWeightOf cs /\ failedWeightOf cs <= totalWeightOf cs.
Proof.
  induction cs as [|c cs IH]; intros Hw; unfold failedWeightOf, totalWeightOf in *; cbn [fold_right map].
  - split; apply Qle_refl.
  - destruct IH as [H1 H2]; [intros c' Hc'; apply Hw; right; exact Hc'|].
    assert (Hc : 0 <= weight c) by (apply Hw; left; reflexivity).
    destruct (passed c).
    + split.
      * rewrite Qplus_0_l. exact H1.
      * rewrite Qplus_0_l. rewrite <- (Qplus_0_l (fold_right _ _ _)).
        apply Qplus_le_compat; assumption.
    + split.
      * assert (H0 : 0 + 0 <= weight c + fold_right Qplus 0
                   (map (fun c0 => if passed c0 then 0 else weight c0) cs))
          by (apply Qplus_le_compat; assumption).
        exact H0.
      * apply Qplus_le_compat; [apply Qle_refl | exact H2].
Qed.

Lemma failedWeight_all_passed : forall cs,
  forallb passed cs = true -> failedWeightOf cs == 0.
Proof.
  induction cs as [|c cs IH]; intros H; unfold failedWeightOf in *; cbn [fold_right map forallb] in *.
  - reflexivity.
  - apply andb_true_iff in H as [Hc H]. rewrite Hc, IH by exact H. reflexivity.
Qed.

Lemma riskChecks_weights : forall p s o now,
  map weight (riskChecks p s o now)
  = [2 # 10; 3 # 10; 2 # 10; 15 # 100; 1 # 10; 1 # 10; 5 # 100; 2 # 10; 15 # 100; 1 # 10].
Proof. reflexivity. Qed.

Lemma riskChecks_total : forall p s o now,
  totalWeightOf (riskChecks p s o now) == 31 # 20.
Proof.
  intros. unfold totalWeightOf. rewrite riskChecks_weights. reflexivity.
Qed.

Lemma riskChecks_nonneg : forall p s o now c,
  In c (riskChecks p s o now) -> 0 <= weight c.
Proof.
  intros p s o now c Hc. apply (in_map weight) in Hc.
  rewrite riskChecks_weights in Hc.
  repeat (destruct Hc as [<-|Hc]; [discriminate|]). contradiction.
Qed.

Lemma calculateRiskScore_spec : forall cs,
  0 < totalWeightOf cs ->
  calculateRiskScore cs == failedWeightOf cs / totalWeightOf cs.
Proof.
  intros cs Ht. unfold calculateRiskScore.
  destruct (sumWeights_spec cs 0 0) as [H1 H2].
  destruct (sumWeights (0, 0) cs) as [tw ws]. simpl in H1, H2.
  rewrite Qplus_0_l in H1, H2.
  assert (Htw : 0 < tw) by (rewrite H1; exact Ht).
  apply Qlt_bool_iff in Htw. rewrite Htw. rewrite H1, H2. reflexivity.
Qed.

(** The orchestrator's gate on a found opportunity: a positive
    profitability, an approved risk assessment and a confidence above 0.7. *)
Lemma scanPair_gate : forall (m : Manager) now (x : ArbitrageCalculator.ArbOpportunity) isInit py,
  snd (OrchestratorOps.scanPair m now (Some x) isInit py) = true <->
  0 < ArbitrageCalculator.profitability x /\
  approved (snd (assessRisk m (OrchestratorOps.riskInput x) now)) = true /\
  7 # 10 < QuantumSignalProcessor.confidence
             (QuantumSignalProcessor.processSignal isInit py (OrchestratorOps.signalInput x)).
Proof.
  intros m now x isInit py. unfold OrchestratorOps.scanPair.
  destruct (Qlt_bool 0 (ArbitrageCalculator.profitability x)) eqn:Ep.
  - apply Qlt_bool_iff in Ep.
    destruct (assessRisk m (OrchestratorOps.riskInput x) now) as [m' ra]. cbn [snd].
    rewrite andb_true_iff, Qlt_bool_iff. tauto.
  - cbn [snd]. split; [discriminate|]. intros [Hp _].
    apply Qlt_bool_iff in Hp. congruence.
Qed.

(** C4 (as the code does it): after the lazy daily reset, an unpaused
    [assessRisk] scores the ten checks as the sum of the weights of the
    failed checks over the sum of all weights, which is 31/20 (1.55), not
    1; a paused one scores 1.0; the score lies in [0,1]; [approved] holds
    exactly when the manager is not paused and all ten checks pass, and
    the score is then 0, below 0.7.  The signal's confidence is not an
    input of [assessRisk]: the orchestrator's scan requires, besides a
    positive profitability and [approved], a confidence above 0.7 of its
    own. *)
Theorem assessRisk_weighted_checklist : forall (m : Manager) (o : Opportunity) (now : Z),
  let s := resetDailyCountersIfNeeded now (riskState m) in
  let cs := riskChecks (riskParams m) s o now in
  let a := snd (assessRisk m o now) in
  totalWeightOf cs == 31 # 20 /\
  (isPaused s = false -> riskScore a == failedWeightOf cs / totalWeightOf cs) /\
  (isPaused s = true -> riskScore a == 1) /\
  (0 <= riskScore a /\ riskScore a <= 1) /\
  approved a = negb (isPaused s) && forallb passed cs /\
  (approved a = true -> riskScore a == 0) /\
  (forall (x : ArbitrageCalculator.ArbOpportunity) isInit py,
     OrchestratorOps.riskInput x = o ->
     (snd (OrchestratorOps.scanPair m now (Some x) isInit py) = true <->
      0 < ArbitrageCalculator.profitability x /\ approved a = true /\
      7 # 10 < QuantumSignalProcessor.confidence
                 (QuantumSignalProcessor.processSignal isInit py (OrchestratorOps.signalInput x)))).
Proof.
  intros m o now s cs a.
  assert (Hscan : forall (x : ArbitrageCalculator.ArbOpportunity) isInit py,
     OrchestratorOps.riskInput x = o ->
     (snd (OrchestratorOps.scanPair m now (Some x) isInit py) = true <->
      0 < ArbitrageCalculator.profitability x /\ approved a = true /\
      7 # 10 < QuantumSignalProcessor.confidence
                 (QuantumSignalProcessor.processSignal isInit py (OrchestratorOps.signalInput x)))).
  { intros x isInit py Hx. unfold a. rewrite <- Hx. apply scanPair_gate. }
  assert (Hmain : totalWeightOf cs == 31 # 20 /\
    (isPaused s = false -> riskScore a == failedWeightOf cs / totalWeightOf cs) /\
    (isPaused s = true -> riskScore a == 1) /\
    (0 <= riskScore a /\ riskScore a <= 1) /\
    approved a = negb (isPaused s) && forallb passed cs /\
    (approved a = true -> riskScore a == 0)).
  { clear Hscan.
    assert (Ht : totalWeightOf cs == 31 # 20) by apply riskChecks_total.
    assert (Ht0 : 0 < totalWeightOf cs) by (rewrite Ht; reflexivity).
    assert (Hscore : calculateRiskScore cs == failedWeightOf cs / totalWeightOf cs)
      by (apply calculateRiskScore_spec; exact Ht0).
    destruct (failedWeight_bounds cs (riskChecks_nonneg _ _ _ _)) as [Hf0 Hf1].
    split; [exact Ht|].
    unfold a, assessRisk. fold s. fold cs. clearbody cs.
    destruct (isPaused s) eqn:Hp; simpl.
    - split; [discriminate|]. split; [intros _; reflexivity|].
      split; [split; discriminate|]. split; [reflexivity | discriminate].
    - split; [intros _; exact Hscore|]. split; [discriminate|]. split.
      + rewrite Hscore. split.
        * apply Qle_shift_div_l; [exact Ht0|]. rewrite Qmult_0_l. exact Hf0.
        * apply Qle_shift_div_r; [exact Ht0|]. rewrite Qmult_1_l. exact Hf1.
      + destruct (forallb passed cs) eqn:Hall; simpl; [|split; [reflexivity | discriminate]].
        assert (H0 : calculateRiskScore cs == 0).
        { rewrite Hscore, (failedWeight_all_passed cs Hall). reflexivity. }
        assert (Hlt : Qlt_bool (calculateRiskScore cs) (7 # 10) = true).
        { apply Qlt_bool_iff. rewrite H0. reflexivity. }
        rewrite Hlt. split; [reflexivity | intros _; exact H0]. }
  destruct Hmain as (H1 & H2 & H3 & H4 & H5 & H6).
  exact (conj H1 (conj H2 (conj H3 (conj H4 (conj H5 (conj H6 Hscan)))))).
Qed.

(** C4 is false as stated: the ten weights of the checklist sum to
    31/20, not to 1. *)
Lemma assessRisk_weights_not_one :
  ~ (totalWeightOf (riskChecks defaultRiskParams (initialRiskState 0) opp_small 100000) == 1).
Proof.
  rewrite riskChecks_total. discriminate.
Qed.

Lemma assessRisk_weighted_checklist_witness :
  isPaused (resetDailyCountersIfNeeded 100000 (riskState (initialManager 0))) = false /\
  riskScore (snd (assessRisk (initialManager 0) opp_small 100000))
    == failedWeightOf (riskChecks defaultRiskParams
                         (resetDailyCountersIfNeeded 100000 (riskState (initialManager 0)))
                         opp_small 100000) / (31 # 20).
Proof.
  assert (Hp : isPaused (resetDailyCountersIfNeeded 100000 (riskState (initialManager 0))) = false)
    by (vm_compute; reflexivity).
  split; [exact Hp|].
  destruct (assessRisk_weighted_checklist (initialManager 0) opp_small 100000)
    as (Ht & Hs & _).
  cbv zeta in Ht, Hs. rewrite <- Ht. exact (Hs Hp).
Defined.

(** ** RiskManager: daily counters *)
Local Open Scope Z_scope.

(** [assessRisk] resets the daily counters exactly when 24 hours have
    elapsed since [lastResetTime], and leaves the risk state alone
    before. *)
Lemma assessRisk_daily_reset : forall m o now,
  let s' := riskState (fst (assessRisk m o now)) in
  (oneDayMs <= now - lastResetTime (riskState m) ->
     dailyLoss s' = 0 /\ dailyProfit s' = 0 /\ lastResetTime s' = now) /\
  (now - lastResetTime (riskState m) < oneDayMs -> s' = riskState m).
Proof.
  intros m o now s'. subst s'. rewrite assess_fst. simpl.
  unfold resetDailyCountersIfNeeded. split; intros H.
  - apply Z.leb_le in H. rewrite H. repeat split.
  - destruct (oneDayMs <=? now - lastResetTime (riskState m)) eqn:E; [|reflexivity].
    apply Z.leb_le in E. lia.
Qed.

(** C5: [recordTradeResult] never resets the daily counters, whatever
    the time elapsed: it keeps [lastResetTime] and adds to [dailyProfit]
    or [dailyLoss].  At the failing input, a successful trade recorded 24
    hours after the window started yields a daily profit of 1.01 ETH
    (the old 1 ETH plus 0.01 ETH), not 0.01 ETH. *)
Theorem recordTradeResult_no_daily_reset :
  (forall m o success now,
     let s := riskState m in
     let s' := riskState (recordTradeResult m o success now) in
     lastResetTime s' = lastResetTime s /\
     dailyProfit s' = dailyProfit s + (if success then estimatedProfit o else 0) /\
     dailyLoss s' = dailyLoss s + (if success then 0 else estimatedProfit o)) /\
  dailyProfit (riskState (recordTradeResult day_old_manager opp_small true oneDayMs))
    = ether 1 + ether 1 / 100.
Proof.
  split.
  - intros m o [|] now s s'; subst s s'; unfold recordTradeResult; simpl.
    + repeat split. lia.
    + destruct (Nat.leb _ _); simpl; repeat split; lia.
  - reflexivity.
Qed.

End RiskManagerProofs.

(** ** QuantumSignalProcessor *)
Module SignalProofs.
Import QuantumSignalProcessor SignalScenarios.
Local Open Scope Q_scope.

(** C2: when the processor is initialised and the Python scorer answers
    [{signal_strength: 2, confidence: 0.9}], [processSignal] passes the
    values through as a [quantum] signal, which [validateSignal] itself
    rejects; no fallback signal is produced. *)
Theorem processSignal_passes_out_of_range :
  processSignal true (PyOutput 2 (9 # 10)) opp_point_two
    = {| signal_strength := 2; confidence := 9 # 10; source := quantum |} /\
  validateSignal (processSignal true (PyOutput 2 (9 # 10)) opp_point_two) = false.
Proof. split; reflexivity. Qed.

(** C8 is false as stated: with profitability 0.2 and an amount of
    1 ETH the fallback strength is 0.505, while
    [clamp((10 * 0.2 + 1e18 / 1e20) / 2, 0, 1)] is 1. *)
Lemma fallback_strength_not_clamped_mean :
  ~ (signal_strength (getFallbackSignal opp_point_two) == spec_fallback_strength opp_point_two).
Proof. vm_compute. discriminate. Qed.

(** C8 (as the code does it): the fallback strength is the mean of the
    two ratios each capped at 1 separately, [(min(10 * profitability, 1)
    + min(amount / 1e20, 1)) / 2], the confidence is that strength
    clamped to [0.3, 0.8], and the source is [fallback]; the confidence
    always lies in [0.3, 0.8], the strength is always at most 1, and it
    is at least 0 when the profitability and the amount are not
    negative. *)
Theorem getFallbackSignal_spec : forall o : Opportunity,
  let f := getFallbackSignal o in
  signal_strength f
    = (Qmin (profitability o * 10) 1 + Qmin (inject_Z (amount o) / inject_Z (10 ^ 20)) 1) / 2 /\
  confidence f = clamp (signal_strength f) (3 # 10) (8 # 10) /\
  source f = fallback /\
  (3 # 10 <= confidence f /\ confidence f <= 8 # 10) /\
  signal_strength f <= 1 /\
  (0 <= profitability o -> (0 <= amount o)%Z -> 0 <= signal_strength f).
Proof.
  intros o f. subst f. unfold getFallbackSignal. cbn [signal_strength confidence source].
  set (p := Qmin (profitability o * 10) 1).
  set (a := Qmin (inject_Z (amount o) / inject_Z (10 ^ 20)) 1).
  split; [reflexivity|]. split; [reflexivity|]. split; [reflexivity|].
  assert (Hp1 : p <= 1) by apply Q.le_min_r.
  assert (Ha1 : a <= 1) by apply Q.le_min_r.
  split; [split|split].
  - apply Q.le_max_l.
  - apply Q.max_lub; [discriminate | apply Q.le_min_l].
  - apply Qle_shift_div_r; [reflexivity|].
    setoid_replace (1 * 2) with (1 + 1) by reflexivity.
    apply Qplus_le_compat; assumption.
  - intros Hprof Hamt. apply Qle_shift_div_l; [reflexivity|].
    rewrite Qmult_0_l.
    setoid_replace 0 with (0 + 0) by reflexivity.
    apply Qplus_le_compat.
    + apply Q.min_glb; [|discriminate].
      setoid_replace 0 with (0 * 10) by reflexivity.
      apply Qmult_le_compat_r; [exact Hprof | discriminate].
    + apply Q.min_glb; [|discriminate].
      apply Qle_shift_div_l; [reflexivity|]. rewrite Qmult_0_l.
      unfold Qle. simpl. lia.
Qed.

Lemma getFallbackSignal_spec_witness :
  (0 <= profitability opp_point_two /\ (0 <= amount opp_point_two)%Z) /\
  0 <= signal_strength (getFallbackSignal opp_point_two).
Proof.
  assert (H1 : 0 <= profitability opp_point_two) by discriminate.
  assert (H2 : (0 <= amount opp_point_two)%Z) by (vm_compute; discriminate).
  split; [split; assumption|].
  destruct (getFallbackSignal_spec opp_point_two) as (_ & _ & _ & _ & _ & H).
  exact (H H1 H2).
Defined.

End SignalProofs.

(** ** ArbitrageCalculator *)
Module ScannerProofs.
Import ArbitrageCalculator ScannerScenarios.
Local Open Scope Z_scope.

Lemma ether_thousandth : ether 1 / 1000 = 10 ^ 15.
Proof. vm_compute. reflexivity. Qed.

Section WithQuote.
Variable quote : Quote.

Lemma scanAmounts_fold_inv : forall a0 a1 l acc,
  incl l testAmounts -> scan_inv quote a0 a1 acc ->
  scan_inv quote a0 a1 (fold_left (fun acc amt =>
      let '(maxProfit, best) := acc in
      match calculateArbitrageProfit quote a0 a1 amt with
      | Some c => if (maxProfit <? cprofit c)%Z then (cprofit c, Some c) else acc
      | None => acc
      end) l acc).
Proof.
  intros a0 a1 l. induction l as [|amt l IH]; intros [mp best] Hincl Hinv; cbn [fold_left].
  - exact Hinv.
  - apply IH; [intros x Hx; apply Hincl; right; exact Hx|].
    destruct (calculateArbitrageProfit quote a0 a1 amt) as [c|] eqn:E; [|exact Hinv].
    destruct (mp <? cprofit c) eqn:Hlt; [|exact Hinv].
    cbn [scan_inv]. exists amt. split; [apply Hincl; left; reflexivity|]. split; [exact E | reflexivity].
Qed.

Lemma roundTrip_amount : forall t0 t1 amt d1 d2 c,
  roundTrip quote t0 t1 amt d1 d2 = Some c -> camount c = amt.
Proof.
  intros t0 t1 amt d1 d2 c H. unfold roundTrip in H.
  destruct (getPrice quote t0 t1 amt d1) as [[im pr]|]; [|discriminate].
  destruct (getPrice quote t1 t0 amt d2) as [_|]; [|discriminate].
  destruct (getAmountOut quote t1 t0 im d2) as [fa|]; [|discriminate].
  destruct (amt <? fa); [|discriminate].
  injection H as <-. reflexivity.
Qed.

Lemma option_list_in : forall {A} (l : list (option A)) x,
  In x (option_list l) -> In (Some x) l.
Proof.
  intros A l x. induction l as [|[y|] l IH]; simpl; intros H.
  - exact H.
  - destruct H as [<-|H]; [left; reflexivity | right; apply IH; exact H].
  - right. apply IH. exact H.
Qed.

Lemma fold_best_in : forall (cs : list Candidate) c0,
  fold_left (fun best current =>
    if (cprofit best <? cprofit current)%Z then current else best) cs c0 = c0 \/
  In (fold_left (fun best current =>
    if (cprofit best <? cprofit current)%Z then current else best) cs c0) cs.
Proof.
  induction cs as [|c cs IH]; intros c0; cbn [fold_left].
  - left. reflexivity.
  - destruct (cprofit c0 <? cprofit c).
    + destruct (IH c) as [H|H]; [rewrite H; right; left; reflexivity | right; right; exact H].
    + destruct (IH c0) as [H|H]; [rewrite H; left; reflexivity | right; right; exact H].
Qed.

Lemma calculateArbitrageProfit_amount : forall t0 t1 amt c,
  calculateArbitrageProfit quote t0 t1 amt = Some c -> camount c = amt.
Proof.
  intros t0 t1 amt c H. unfold calculateArbitrageProfit in H.
  assert (Hall : forall x, In x (option_list
            [roundTrip quote t0 t1 amt UNISWAP_V2 SUSHISWAP;
             roundTrip quote t0 t1 amt SUSHISWAP UNISWAP_V2]) -> camount x = amt).
  { intros x Hx. apply option_list_in in Hx.
    destruct Hx as [Hx|[Hx|[]]]; eapply roundTrip_amount; exact Hx. }
  destruct (option_list _) as [|c0 cs] eqn:E; [discriminate|].
  injection H as <-.
  destruct (fold_best_in cs c0) as [H|H].
  - rewrite H. apply Hall. left. reflexivity.
  - apply Hall. right. exact H.
Qed.

Lemma scanAmounts_inv : forall a0 a1, scan_inv quote a0 a1 (scanAmounts quote a0 a1).
Proof.
  intros a0 a1. unfold scanAmounts. apply scanAmounts_fold_inv.
  - intros x Hx; exact Hx.
  - reflexivity.
Qed.

(** C3 (as the code does it): every opportunity returned by
    [findArbitrageOpportunity] has [minProfit = floor(95 * estimatedProfit
    / 100)], so [0 < minProfit <= estimatedProfit]; its [estimatedProfit]
    exceeds 0.001 ETH and is the gross round-trip gain of a candidate
    computed by [calculateArbitrageProfit] at one of the test amounts
    (final amount minus amount); no gas estimate is deducted. *)
Theorem findArbitrageOpportunity_profit_bounds : forall t0 t1 o,
  findArbitrageOpportunity quote t0 t1 = Some o ->
  minProfit o = Z.quot (estimatedProfit o * 95) 100 /\
  0 < minProfit o <= estimatedProfit o /\
  ether 1 / 1000 < estimatedProfit o /\
  exists a1 c, tokens t1 = Some a1 /\ In (amount o) testAmounts /\
    calculateArbitrageProfit quote (asset o) a1 (amount o) = Some c /\
    cprofit c = estimatedProfit o.
Proof.
  intros t0 t1 o H. unfold findArbitrageOpportunity in H.
  destruct (tokens t0) as [a0|] eqn:E0; [|discriminate].
  destruct (tokens t1) as [a1|] eqn:E1; [|discriminate].
  pose proof (scanAmounts_inv a0 a1) as Hinv.
  destruct (scanAmounts quote a0 a1) as [mp [b|]]; [|discriminate].
  destruct (ether 1 / 1000 <? mp) eqn:Hmp; [|discriminate].
  pose proof (f_equal (fun x => match x with Some y => y | None => o end) H) as Ho.
  cbv beta iota in Ho. subst o.
  cbn [minProfit estimatedProfit amount asset].
  apply Z.ltb_lt in Hmp. rewrite ether_thousandth in Hmp.
  destruct Hinv as (amt & Hin & Hcalc & Hprof).
  assert (Hamt : camount b = amt) by (eapply calculateArbitrageProfit_amount; exact Hcalc).
  rewrite Z.quot_div_nonneg by lia.
  split; [reflexivity|]. split; [split|split].
  - apply Z.div_str_pos. lia.
  - apply Z.div_le_upper_bound; lia.
  - rewrite ether_thousandth. exact Hmp.
  - exists a1, b. rewrite Hamt. repeat split; assumption.
Qed.

End WithQuote.

(** C3 is false as stated: with the quotes of [thinQuote] the scanner
    builds a WETH/DAI opportunity of 0.002 ETH, while the gas estimate
    at 20 gwei is 0.006 ETH, so its profit after gas is negative. *)
Lemma findArbitrageOpportunity_ignores_gas :
  exists o, findArbitrageOpportunity thinQuote "WETH" "DAI" = Some o /\
            estimatedProfit o - calculateGasCosts (Some (gwei 20)) <= 0.
Proof.
  assert (Hv : option_map estimatedProfit (findArbitrageOpportunity thinQuote "WETH" "DAI")
               = Some (2 * 10 ^ 15)) by (vm_compute; reflexivity).
  destruct (findArbitrageOpportunity thinQuote "WETH" "DAI") as [o|]; [|discriminate].
  exists o. split; [reflexivity|].
  injection Hv as Hv. rewrite Hv. vm_compute. discriminate.
Qed.

Lemma findArbitrageOpportunity_profit_bounds_witness :
  (exists o, findArbitrageOpportunity thinQuote "WETH" "DAI" = Some o) /\
  (forall o, findArbitrageOpportunity thinQuote "WETH" "DAI" = Some o ->
     minProfit o <= estimatedProfit o).
Proof.
  split.
  - assert (Hv : findArbitrageOpportunity thinQuote "WETH" "DAI" <> None)
      by (vm_compute; discriminate).
    destruct (findArbitrageOpportunity thinQuote "WETH" "DAI") as [o|]; [|congruence].
    exists o. reflexivity.
  - intros o H.
    destruct (findArbitrageOpportunity_profit_bounds thinQuote "WETH" "DAI" o H)
      as (_ & [_ Hle] & _). exact Hle.
Defined.

End ScannerProofs.

(** ** FlashbotsExecutor *)
Module ExecutorProofs.
Import FlashbotsExecutor ExecutorScenarios.
Local Open Scope Z_scope.




(** The target block: the given one unless it is null or 0, else the
    current block number plus one. *)
Lemma resolveTarget_spec : forall relay target,
  (forall t, target = Some t -> t <> 0 -> resolveTarget relay target = inl t) /\
  (target = None \/ target = Some 0 ->
     resolveTarget relay target
       = match getBlockNumber relay with inl b => inl (b + 1) | inr msg => inr msg end).
Proof.
  intros relay target. unfold resolveTarget. split.
  - intros t -> Ht. apply Z.eqb_neq in Ht. rewrite Ht. reflexivity.
  - intros [-> | ->]; reflexivity.
Qed.




End ExecutorProofs.

(** ** Orchestrator *)
Module OrchestratorProofs.
Import Orchestrator.
Local Open Scope nat_scope.

Lemma update_nth_length {A} (l : list A) i f : length (update_nth l i f) = length l.
Proof.
  unfold update_nth. rewrite length_map, length_combine, length_seq. lia.
Qed.

Lemma step_scans_length : forall st e,
  length (scans (step st e)) <= length (scans st) + (match e with Tick => 1 | _ => 0 end).
Proof.
  intros st []; simpl.
  - destruct (isRunning st); simpl; [rewrite length_app; simpl|]; lia.
  - rewrite update_nth_length. lia.
  - rewrite update_nth_length. lia.
  - lia.
Qed.

Lemma run_scans_length : forall es st,
  length (scans (run st es)) <= length (scans st) + ticks es.
Proof.
  unfold run, ticks. induction es as [|e es IH]; intros st; simpl; [lia|].
  specialize (IH (step st e)). pose proof (step_scans_length st e).
  destruct e; simpl in *; lia.
Qed.

Lemma inFlight_le_scans : forall st a, inFlight st a <= length (scans st).
Proof.
  intros st a. unfold inFlight. induction (scans st) as [|s l IH]; simpl; [lia|].
  destruct (match executing s with Some a' => _ | None => false end); simpl; lia.
Qed.

(** Examining a pair is a no-op for a scan that is awaiting its
    execution: a scan has at most one execution in flight. *)
Lemma examine_busy : forall go s a, executing s = Some a -> examine go s = s.
Proof.
  intros go s a H. unfold examine. rewrite H. reflexivity.
Qed.

(** C7 (counterexample): two overlapping scans started by two ticks
    each reach a WETH pair with a go and await two executions for the
    asset WETH at the same time; nothing is checked before the second. *)
Lemma inFlight_two_for_weth :
  inFlight (run started [Tick; Examine 0 true; Tick; Examine 1 true]) "WETH" = 2.
Proof. vm_compute. reflexivity. Qed.

(** C7 (amended): there is no in-flight set; the only bound on the
    executions in flight for an asset is the number of scans started,
    one per [setInterval] tick, and each scan awaits at most one
    execution: a scan that is executing does not examine pairs. *)
Theorem inFlight_bounded_by_ticks : forall es a,
  inFlight (run started es) a <= ticks es /\
  (forall go s a', executing s = Some a' -> examine go s = s).
Proof.
  intros es a. split; [|exact examine_busy].
  pose proof (inFlight_le_scans (run started es) a).
  pose proof (run_scans_length es started). simpl in *. lia.
Qed.

Lemma inFlight_bounded_by_ticks_witness :
  inFlight (run started [Tick; Examine 0 true; Tick; Examine 1 true]) "WETH" <= 2 /\
  examine true {| pending := supportedPairs; executing := Some "WETH" |}
    = {| pending := supportedPairs; executing := Some "WETH" |}.
Proof.
  destruct (inFlight_bounded_by_ticks [Tick; Examine 0 true; Tick; Examine 1 true] "WETH")
    as [H1 H2].
  split; [exact H1|]. apply (H2 true _ "WETH"). reflexivity.
Defined.

End OrchestratorProofs.

(** ** PriceMonitor *)
Module VolatilityProofs.
Import PriceMonitor.
Local Open Scope R_scope.

(** The volatility is a square root, hence never negative. *)
Lemma calculateVolatility_nonneg : forall history periods,
  0 <= calculateVolatility history periods.
Proof.
  intros history periods. unfold calculateVolatility.
  destruct (Nat.ltb _ 2); [lra|].
  destruct (returns _); [lra|apply sqrt_pos].
Qed.

(** With a window of at least 2, fewer than 2 samples give 0. *)
Lemma calculateVolatility_short : forall history periods,
  (length history < 2)%nat -> calculateVolatility history periods = 0.
Proof.
  intros history periods H. unfold calculateVolatility, getPriceHistory, lastN.
  destruct periods as [|k].
  - apply Nat.ltb_lt in H. rewrite H. reflexivity.
  - assert (Hl : (length (skipn (length history - S k) history) < 2)%nat)
      by (rewrite length_skipn; lia).
    apply Nat.ltb_lt in Hl. rewrite Hl. reflexivity.
Qed.

Lemma variance_123 : variance (returns [1; 2; 3]%Q) == (1 # 16)%Q.
Proof. vm_compute. reflexivity. Qed.

(** C9: with [periods = 0], [history.slice(-0)] is the whole history,
    not the last 0 samples: on the history 1, 2, 3 the code returns the
    standard deviation 1/4 of the returns 1 and 1/2, where a window of 0
    samples (fewer than 2) gives 0. *)
Theorem calculateVolatility_window_zero :
  getPriceHistory [1; 2; 3]%Q 0 = [1; 2; 3]%Q /\
  calculateVolatility [1; 2; 3]%Q 0 = / 4 /\
  calculateVolatility [1; 2; 3]%Q 0 <> 0.
Proof.
  assert (E : calculateVolatility [1; 2; 3]%Q 0 = / 4).
  { unfold calculateVolatility. cbn [getPriceHistory lastN length Nat.ltb Nat.leb].
    change (returns [1; 2; 3]%Q) with [(1 # 1); (1 # 2)]%Q.
    rewrite <- (sqrt_square (/ 4)) by lra. f_equal.
    change [(1 # 1); (1 # 2)]%Q with (returns [1; 2; 3]%Q).
    rewrite (Qeq_eqR _ _ variance_123). unfold Q2R. simpl. lra. }
  split; [reflexivity|]. split; [exact E|]. rewrite E. lra.
Qed.

End VolatilityProofs.

(** * Further properties of the code *)

(** ** RiskManager: history, counters, pause, failure reason *)
Module RiskManagerOpsProofs.
Import RiskManager RiskManagerOps RiskManagerOpsSpecs.
Local Open Scope nat_scope.

Lemma pushHistory_length : forall h t,
  length h <= maxHistorySize -> length (pushHistory h t) <= maxHistorySize.
Proof.
  intros h t H. unfold pushHistory.
  destruct (Nat.ltb maxHistorySize (length (h ++ [t])%list)) eqn:E.
  - apply Nat.ltb_lt in E. destruct h as [|x h]; simpl in *; [lia|].
    rewrite length_app in *. simpl in *. lia.
  - apply Nat.ltb_ge in E. exact E.
Qed.

Lemma pushHistory_last : forall h t, exists pre, pushHistory h t = (pre ++ [t])%list.
Proof.
  intros h t. unfold pushHistory.
  destruct (Nat.ltb maxHistorySize (length (h ++ [t])%list)) eqn:E.
  - destruct h as [|x h]; [discriminate|]. exists h. reflexivity.
  - exists h. reflexivity.
Qed.

Lemma step_tradeHistory : forall m op,
  tradeHistory (fst (step m op)) =
  match op with
  | Record o success now =>
      pushHistory (tradeHistory m)
        {| timestamp := now; trade_success := success;
           profit := if success then estimatedProfit o else 0%Z;
           loss := if success then 0%Z else estimatedProfit o |}
  | _ => tradeHistory m
  end.
Proof.
  intros m [o now|o success now|r|]; try reflexivity.
  unfold step, assessRisk. destruct (isPaused _); reflexivity.
Qed.

(** X1: the trade history never holds more than [maxHistorySize]
    (1000) trades, whatever operations run on the manager, and a
    recorded trade is always the last entry of the history. *)
Theorem tradeHistory_bounded : forall ops m,
  length (tradeHistory m) <= maxHistorySize ->
  length (tradeHistory (fst (run m ops))) <= maxHistorySize /\
  (forall o success now, exists pre,
     tradeHistory (recordTradeResult m o success now) =
     (pre ++ [{| timestamp := now; trade_success := success;
                 profit := if success then estimatedProfit o else 0%Z;
                 loss := if success then 0%Z else estimatedProfit o |}])%list).
Proof.
  intros ops m H. split.
  - revert m H. induction ops as [|op ops IH]; intros m H; [exact H|].
    rewrite RiskManagerProofs.run_cons_fst. apply IH.
    rewrite step_tradeHistory. destruct op; try exact H.
    apply pushHistory_length. exact H.
  - intros o success now. apply pushHistory_last.
Qed.

Lemma tradeHistory_bounded_witness :
  length (tradeHistory (fst (run (initialManager 0)
     [Record RiskManagerScenarios.opp_small false 10; Resume]))) <= maxHistorySize.
Proof.
  destruct (tradeHistory_bounded [Record RiskManagerScenarios.opp_small false 10; Resume]
              (initialManager 0)) as [H _].
  - simpl. unfold maxHistorySize. lia.
  - exact H.
Defined.

Lemma step_counts : forall m op, counts_ok m -> counts_ok (fst (step m op)).
Proof.
  unfold counts_ok. intros m [o now|o [|] now|r|] H.
  - rewrite RiskManagerProofs.step_assess_fst, RiskManagerProofs.assess_fst. simpl.
    unfold resetDailyCountersIfNeeded. destruct (_ <=? _)%Z; simpl; exact H.
  - simpl. lia.
  - simpl. destruct (Nat.leb _ _); simpl; lia.
  - exact H.
  - exact H.
Qed.

(** X2: the number of successful trades never exceeds the number of
    trades, under any sequence of assessments, trade results, pauses
    and resumes. *)
Theorem successfulTrades_le_totalTrades : forall ops m,
  successfulTrades (riskState m) <= totalTrades (riskState m) ->
  successfulTrades (riskState (fst (run m ops))) <= totalTrades (riskState (fst (run m ops))).
Proof.
  induction ops as [|op ops IH]; intros m H; [exact H|].
  rewrite RiskManagerProofs.run_cons_fst. apply IH. apply (step_counts m op). exact H.
Qed.

Lemma successfulTrades_le_totalTrades_witness :
  successfulTrades (riskState (fst (run (initialManager 0)
     [Record RiskManagerScenarios.opp_small true 10; Record RiskManagerScenarios.opp_small false 20])))
  <= totalTrades (riskState (fst (run (initialManager 0)
     [Record RiskManagerScenarios.opp_small true 10; Record RiskManagerScenarios.opp_small false 20]))).
Proof.
  apply successfulTrades_le_totalTrades. simpl. lia.
Defined.

(** X3: [getTradeHistory(limit)] returns the newest trades, in order:
    the last [limit] of them, or the whole history when [limit] is 0
    ([slice(-0)] is [slice(0)]). *)
Theorem getTradeHistory_newest : forall m limit,
  (exists older, (older ++ getTradeHistory m limit)%list = tradeHistory m) /\
  length (getTradeHistory m limit) =
    match limit with
    | O => length (tradeHistory m)
    | S _ => Nat.min limit (length (tradeHistory m))
    end.
Proof.
  intros m limit. unfold getTradeHistory, PriceMonitor.lastN.
  destruct limit as [|k].
  - split; [exists []; reflexivity | reflexivity].
  - split.
    + exists (firstn (length (tradeHistory m) - S k) (tradeHistory m)). apply firstn_skipn.
    + rewrite length_skipn. lia.
Qed.

(** X4: recording a trade result pauses the system exactly when it is
    a failure that brings the consecutive failures to the limit, and
    never unpauses it: a success after an automatic pause leaves the
    system paused. *)
Theorem recordTradeResult_isPaused : forall m o success now,
  isPaused (riskState (recordTradeResult m o success now)) =
  isPaused (riskState m) ||
  (negb success &&
   Nat.leb (maxConsecutiveFailures (riskParams m)) (S (consecutiveFailures (riskState m)))).
Proof.
  intros m o [|] now; simpl.
  - rewrite orb_false_r. reflexivity.
  - destruct (Nat.leb _ _); simpl; [rewrite orb_true_r|rewrite orb_false_r]; reflexivity.
Qed.

Local Open Scope Q_scope.

Lemma fold_heavier : forall rest c0,
  let r := fold_left heavier rest c0 in
  (r = c0 \/ In r rest) /\ weight c0 <= weight r /\ (forall c, In c rest -> weight c <= weight r).
Proof.
  induction rest as [|c rest IH]; intros c0; cbn [fold_left].
  - split; [left; reflexivity|]. split; [apply Qle_refl | intros c []].
  - destruct (IH (heavier c0 c)) as (Hin & H0 & Hall).
    assert (Hh : weight c0 <= weight (heavier c0 c) /\ weight c <= weight (heavier c0 c)).
    { unfold heavier. destruct (Qlt_bool (weight c) (weight c0)) eqn:E.
      - apply Qlt_bool_iff in E. split; [apply Qle_refl | apply Qlt_le_weak; exact E].
      - unfold Qlt_bool in E. apply negb_false_iff, Qle_bool_iff in E.
        split; [exact E | apply Qle_refl]. }
    split; [|split].
    + destruct Hin as [->|Hin]; [|right; right; exact Hin].
      unfold heavier. destruct (Qlt_bool _ _); [left; reflexivity | right; left; reflexivity].
    + eapply Qle_trans; [apply Hh | exact H0].
    + intros c' [<-|Hc']; [eapply Qle_trans; [apply Hh | exact H0] | apply Hall; exact Hc'].
Qed.

(** X5: [getFailureReason] returns 'High risk score' when no check
    failed, and otherwise names a failed check of the largest weight
    among the failed checks. *)
Theorem getFailureReason_heaviest : forall cs,
  (forallb passed cs = true -> getFailureReason cs = ReasonHighRiskScore) /\
  (forallb passed cs = false ->
   exists c, In c cs /\ passed c = false /\ getFailureReason cs = ReasonCheck (name c) /\
     forall c', In c' cs -> passed c' = false -> weight c' <= weight c).
Proof.
  intros cs. unfold getFailureReason.
  assert (Hf : forall c, In c (filter (fun c => negb (passed c)) cs) <-> In c cs /\ passed c = false).
  { intros c. rewrite filter_In, negb_true_iff. reflexivity. }
  split.
  - intros H. destruct (filter _ cs) as [|c rest] eqn:E; [reflexivity|].
    exfalso. destruct (proj1 (Hf c)) as [Hc Hp]; [left; reflexivity|].
    rewrite forallb_forall in H. rewrite (H c Hc) in Hp. discriminate.
  - intros H. destruct (filter _ cs) as [|c0 rest] eqn:E.
    + exfalso. apply Bool.not_true_iff_false in H. apply H. apply forallb_forall.
      intros c Hc. destruct (passed c) eqn:Ep; [reflexivity|].
      assert (Hin : In c []) by (apply Hf; auto).
      destruct Hin.
    + destruct (fold_heavier rest c0) as (Hin & H0 & Hall).
      fold heavier.
      exists (fold_left heavier rest c0). split; [|split; [|split]].
      * apply Hf. destruct Hin as [->|Hin]; [left; reflexivity | right; exact Hin].
      * apply Hf. destruct Hin as [->|Hin]; [left; reflexivity | right; exact Hin].
      * reflexivity.
      * intros c' Hc' Hp. assert (Hin' : In c' (c0 :: rest)) by (apply Hf; auto).
        destruct Hin' as [<-|Hin']; [exact H0 | apply Hall; exact Hin'].
Qed.

Lemma getFailureReason_heaviest_witness :
  getFailureReason [mkCheck "a" false (1 # 10); mkCheck "b" false (3 # 10); mkCheck "c" true (5 # 10)]
    = ReasonCheck "b".
Proof.
  destruct (getFailureReason_heaviest
    [mkCheck "a" false (1 # 10); mkCheck "b" false (3 # 10); mkCheck "c" true (5 # 10)])
    as [_ H].
  destruct (H eq_refl) as (c & Hc & Hp & Hr & Hmax).
  rewrite Hr. simpl in Hc.
  destruct Hc as [<-|[<-|[<-|[]]]].
  - exfalso. specialize (Hmax (mkCheck "b" false (3 # 10)) (or_intror (or_introl eq_refl)) eq_refl).
    vm_compute in Hmax. apply Hmax. reflexivity.
  - reflexivity.
  - discriminate Hp.
Defined.

(** X6: [assessRisk] never gives the reason 'High risk score': an
    unpaused manager that rejects an opportunity always names a failed
    check, because when every check passes the risk score is 0, below
    the 0.7 bound. *)
Theorem assessRisk_rejection_names_failed_check : forall m o now,
  let s := resetDailyCountersIfNeeded now (riskState m) in
  let cs := riskChecks (riskParams m) s o now in
  let a := snd (assessRisk m o now) in
  reason a <> ReasonHighRiskScore /\
  (isPaused s = false -> approved a = false ->
   exists c, In c cs /\ passed c = false /\ reason a = ReasonCheck (name c)).
Proof.
  intros m o now s cs a.
  assert (Hall : forallb passed cs = true -> Qlt_bool (calculateRiskScore cs) (7 # 10) = true).
  { intros Hp. apply Qlt_bool_iff.
    rewrite RiskManagerProofs.calculateRiskScore_spec
      by (unfold cs; rewrite RiskManagerProofs.riskChecks_total; reflexivity).
    rewrite RiskManagerProofs.failedWeight_all_passed by exact Hp.
    unfold cs. rewrite RiskManagerProofs.riskChecks_total. reflexivity. }
  assert (Hrej : forallb passed cs && Qlt_bool (calculateRiskScore cs) (7 # 10) = false ->
                 exists c, In c cs /\ passed c = false /\ getFailureReason cs = ReasonCheck (name c)).
  { intros Hok. destruct (forallb passed cs) eqn:Ep.
    - rewrite (Hall eq_refl) in Hok. discriminate.
    - destruct (proj2 (getFailureReason_heaviest cs) Ep) as (c & Hc & Hp & Hr & _).
      exists c. auto. }
  unfold a, assessRisk. fold s. fold cs.
  destruct (isPaused s) eqn:Hps; cbn [snd reason approved].
  - split; [discriminate | intros H; discriminate H].
  - destruct (forallb passed cs && Qlt_bool (calculateRiskScore cs) (7 # 10)) eqn:Ok;
      cbn [snd reason approved].
    + split; [discriminate | intros _ H; discriminate H].
    + destruct (Hrej eq_refl) as (c & Hc & Hp & Hr). rewrite Hr.
      split; [discriminate | intros _ _; exists c; auto].
Qed.

Lemma assessRisk_rejection_names_failed_check_witness :
  reason (snd (assessRisk (initialManager 0) RiskManagerScenarios.opp_small 0))
    = ReasonCheck "cooldown_period".
Proof.
  destruct (assessRisk_rejection_names_failed_check (initialManager 0) RiskManagerScenarios.opp_small 0)
    as [_ H].
  destruct (H eq_refl) as (c & Hc & Hp & Hr).
  - vm_compute. reflexivity.
  - rewrite Hr. vm_compute in Hc. vm_compute in Hp.
    repeat (destruct Hc as [<-|Hc]; [try discriminate Hp; reflexivity|]). destruct Hc.
Defined.

End RiskManagerOpsProofs.

(** ** QuantumSignalProcessor.incrementVersion *)
Module SignalVersionProofs.
Import SignalVersion SignalVersionSpecs.
Local Open Scope nat_scope.

Lemma append_empty_r : forall s, s ++ EmptyString = s.
Proof. induction s as [|c s IH]; cbn [String.append]; [reflexivity | rewrite IH; reflexivity]. Qed.

Lemma splitDot_nonempty : forall s, splitDot s <> [].
Proof.
  intros [|c s]; simpl; [discriminate|].
  destruct (Ascii.eqb c dot); [discriminate|].
  destruct (splitDot s); discriminate.
Qed.

Lemma joinDot_cons : forall x l, l <> [] -> joinDot (x :: l) = x ++ String dot (joinDot l).
Proof. intros x [|y l] H; [congruence | reflexivity]. Qed.

(** Splitting on dots and joining with dots gives back the string. *)
Lemma joinDot_splitDot : forall s, joinDot (splitDot s) = s.
Proof.
  induction s as [|c s IH]; [reflexivity|]. simpl.
  destruct (Ascii.eqb c dot) eqn:E.
  - apply Ascii.eqb_eq in E. subst c.
    rewrite joinDot_cons by apply splitDot_nonempty. rewrite IH. reflexivity.
  - pose proof (splitDot_nonempty s) as Hne.
    destruct (splitDot s) as [|r rs] eqn:Es; [congruence|].
    destruct rs as [|r' rs].
    + simpl in *. rewrite IH. reflexivity.
    + rewrite joinDot_cons by discriminate. rewrite joinDot_cons in IH by discriminate.
      rewrite <- IH. reflexivity.
Qed.

Lemma splitDot_app_nodot : forall a s, no_dot a = true ->
  splitDot (a ++ String dot s) = a :: splitDot s.
Proof.
  induction a as [|c a IH]; intros s H; cbn [String.append splitDot].
  - rewrite Ascii.eqb_refl. reflexivity.
  - unfold no_dot in H. cbn [list_ascii_of_string forallb] in H. apply andb_true_iff in H as [Hc H].
    apply negb_true_iff in Hc. rewrite Hc. rewrite IH by exact H. reflexivity.
Qed.

Lemma splitDot_nodot : forall a, no_dot a = true -> splitDot a = [a].
Proof.
  induction a as [|c a IH]; intros H; cbn [splitDot]; [reflexivity|].
  unfold no_dot in H. cbn [list_ascii_of_string forallb] in H. apply andb_true_iff in H as [Hc H].
  apply negb_true_iff in Hc. rewrite Hc. rewrite IH by exact H. reflexivity.
Qed.

Lemma digit_char : forall d, (d < 10)%nat ->
  is_digit (Ascii.ascii_of_nat (48 + d)) = true /\
  digit_value 10 (Ascii.ascii_of_nat (48 + d)) = Some (Z.of_nat d).
Proof.
  intros d Hd.
  do 10 (destruct d as [|d]; [split; reflexivity|]). lia.
Qed.

(** Facts about a single digit character, checked over all 256
    characters. *)
Lemma digit_facts : forall c, is_digit c = true ->
  is_space c = false /\ Ascii.eqb c dot = false /\
  Ascii.eqb c (Ascii.ascii_of_nat 45) = false /\ Ascii.eqb c (Ascii.ascii_of_nat 43) = false /\
  Ascii.eqb c (Ascii.ascii_of_nat 120) = false /\ Ascii.eqb c (Ascii.ascii_of_nat 88) = false.
Proof.
  intros [[] [] [] [] [] [] [] []]; vm_compute; intros H;
    first [discriminate H | repeat split].
Qed.

Lemma digits_aux_digits : forall fuel n acc, all_digits acc = true ->
  all_digits (digits_aux fuel n acc) = true.
Proof.
  induction fuel as [|fuel IH]; intros n acc H; simpl; [exact H|].
  assert (Hd : all_digits (String (Ascii.ascii_of_nat (48 + n mod 10)) acc) = true).
  { unfold all_digits. cbn [list_ascii_of_string forallb]. rewrite (proj1 (digit_char (n mod 10) ltac:(apply Nat.mod_upper_bound; lia))).
    exact H. }
  destruct (Nat.ltb n 10); [exact Hd | apply IH; exact Hd].
Qed.

Lemma digits_aux_head : forall fuel n acc,
  exists c s, digits_aux (S fuel) n acc = String c s.
Proof.
  induction fuel as [|fuel IH]; intros n acc; simpl.
  - destruct (Nat.ltb n 10); eauto.
  - destruct (Nat.ltb n 10); [eauto|].
    destruct (IH (n / 10) (String (Ascii.ascii_of_nat (48 + n mod 10)) acc)) as (c & s & E).
    simpl in E. rewrite E. eauto.
Qed.

Lemma digits_prefix_aux : forall fuel n acc v seen, n < fuel ->
  exists k : nat, digits_prefix 10 (digits_aux fuel n acc) v seen =
            digits_prefix 10 acc (v * 10 ^ Z.of_nat k + Z.of_nat n)%Z true.
Proof.
  induction fuel as [|fuel IH]; intros n acc v seen Hn; [lia|]. cbn [digits_aux].
  destruct (Nat.ltb n 10) eqn:E.
  - apply Nat.ltb_lt in E. exists 1. cbn [digits_prefix].
    rewrite (proj2 (digit_char (n mod 10) ltac:(apply Nat.mod_upper_bound; lia))).
    rewrite Nat.mod_small by exact E. f_equal; lia.
  - apply Nat.ltb_ge in E.
    destruct (IH (n / 10) (String (Ascii.ascii_of_nat (48 + n mod 10)) acc) v seen) as [k Hk].
    { apply Nat.Div0.div_lt_upper_bound; lia. }
    rewrite Hk. exists (k + 1). cbn [digits_prefix].
    rewrite (proj2 (digit_char (n mod 10) ltac:(apply Nat.mod_upper_bound; lia))).
    f_equal.
    rewrite Nat2Z.inj_add, Z.pow_add_r by lia.
    rewrite (Nat.div_mod_eq n 10) at 3. rewrite Nat2Z.inj_add, Nat2Z.inj_mul. lia.
Qed.

(** [parseInt] reads back the decimal rendering of a natural number. *)
Lemma parseInt_string_of_nat : forall n, parseInt (string_of_nat n) = Some (Z.of_nat n).
Proof.
  intros n. unfold string_of_nat.
  pose proof (digits_aux_digits (S n) n EmptyString eq_refl) as Hall.
  destruct (digits_aux_head n n EmptyString) as (c & s & E).
  destruct (digits_prefix_aux (S n) n EmptyString 0%Z false ltac:(lia)) as [k Hk].
  rewrite E in Hall, Hk. unfold all_digits in Hall. cbn [list_ascii_of_string forallb] in Hall.
  apply andb_true_iff in Hall as [Hc Hs].
  destruct (digit_facts c Hc) as (Hsp & _ & Hm & Hp & Hx & HX).
  rewrite E. unfold parseInt. cbn [skip_spaces]. rewrite Hsp. cbn iota.
  rewrite Hm, Hp. cbn iota beta.
  destruct s as [|c2 s2].
  - rewrite Hk. cbn [digits_prefix option_map]. f_equal. lia.
  - cbn [list_ascii_of_string forallb] in Hs. apply andb_true_iff in Hs as [Hc2 _].
    destruct (digit_facts c2 Hc2) as (_ & _ & _ & _ & Hx2 & HX2).
    rewrite Hx2, HX2, andb_false_r. cbn iota beta. rewrite Hk.
    cbn [digits_prefix option_map]. f_equal. lia.
Qed.

Lemma string_of_nat_nodot : forall n, no_dot (string_of_nat n) = true.
Proof.
  intros n. pose proof (digits_aux_digits (S n) n EmptyString eq_refl) as H.
  unfold no_dot, string_of_nat. unfold all_digits in H.
  induction (list_ascii_of_string (digits_aux (S n) n EmptyString)) as [|c l IH]; [reflexivity|].
  simpl in *. apply andb_true_iff in H as [Hc H].
  rewrite (proj1 (proj2 (digit_facts c Hc))). simpl. apply IH. exact H.
Qed.

Lemma incrementVersion_patch : forall a b n rest,
  no_dot a = true -> no_dot b = true ->
  (rest = EmptyString \/ exists r, rest = String dot r) ->
  incrementVersion (a ++ String dot (b ++ String dot (string_of_nat n ++ rest)))
  = a ++ String dot (b ++ String dot (string_of_nat (S n) ++ rest)).
Proof.
  intros a b n rest Ha Hb Hrest. unfold incrementVersion.
  rewrite splitDot_app_nodot by exact Ha. rewrite splitDot_app_nodot by exact Hb.
  assert (Hv : numberToString (option_map (fun v => (v + 1)%Z) (Some (Z.of_nat n)))
               = string_of_nat (S n)).
  { cbn [option_map numberToString]. unfold string_of_Z.
    replace (Z.of_nat n + 1)%Z with (Z.of_nat (S n)) by lia.
    destruct (Z.ltb_spec (Z.of_nat (S n)) 0); [lia|]. rewrite Nat2Z.id. reflexivity. }
  destruct Hrest as [->|[r ->]].
  - rewrite !append_empty_r. rewrite (splitDot_nodot (string_of_nat n)) by apply string_of_nat_nodot.
    unfold nth_part. simpl nth_error. cbv iota beta.
    rewrite parseInt_string_of_nat, Hv. simpl. reflexivity.
  - rewrite splitDot_app_nodot by apply string_of_nat_nodot.
    unfold nth_part. simpl nth_error. cbv iota beta.
    rewrite parseInt_string_of_nat, Hv.
    pose proof (splitDot_nonempty r) as Hne.
    unfold set_part. destruct (splitDot r) as [|p ps] eqn:Er; [congruence|].
    rewrite !joinDot_cons by discriminate.
    rewrite <- Er, joinDot_splitDot. reflexivity.
Qed.

(** X7: on a version ["a.b.n..."] whose third part is the decimal
    number [n], [incrementVersion] replaces it with [n + 1] and keeps
    every other part; doubles represent [n + 1] exactly below [2^53]. *)
Theorem incrementVersion_bumps_patch : forall a b n rest,
  no_dot a = true -> no_dot b = true ->
  (rest = EmptyString \/ exists r, rest = String dot r) ->
  (Z.of_nat n + 1 < 2 ^ 53)%Z ->
  incrementVersion (a ++ String dot (b ++ String dot (string_of_nat n ++ rest)))
  = a ++ String dot (b ++ String dot (string_of_nat (S n) ++ rest)).
Proof. intros a b n rest Ha Hb Hrest _. apply incrementVersion_patch; assumption. Qed.

Lemma incrementVersion_bumps_patch_witness :
  incrementVersion "1.0.41.7" = "1.0.42.7".
Proof.
  apply (incrementVersion_bumps_patch "1" "0" 41 (String dot "7")).
  - reflexivity.
  - reflexivity.
  - right. exists "7". reflexivity.
  - vm_compute. reflexivity.
Defined.

(** X8: a version with fewer than three parts gets the part [NaN]
    ([parseInt(undefined)]): ["a"] becomes ["a..NaN"], the missing
    middle part joining as empty, and ["a.b"] becomes ["a.b.NaN"]. *)
Theorem incrementVersion_short : forall a b,
  no_dot a = true -> no_dot b = true ->
  incrementVersion a = a ++ String dot (String dot "NaN") /\
  incrementVersion (a ++ String dot b) = a ++ String dot (b ++ String dot "NaN").
Proof.
  intros a b Ha Hb. unfold incrementVersion. split.
  - rewrite splitDot_nodot by exact Ha. reflexivity.
  - rewrite splitDot_app_nodot by exact Ha. rewrite splitDot_nodot by exact Hb. reflexivity.
Qed.

Lemma incrementVersion_short_witness :
  incrementVersion "1" = "1..NaN" /\ incrementVersion "1.0" = "1.0.NaN".
Proof.
  destruct (incrementVersion_short "1" "0" eq_refl eq_refl) as [H1 H2].
  split; [exact H1 | exact H2].
Defined.

End SignalVersionProofs.

(** ** QuantumSignalProcessor.updateModel *)
Module ModelUpdateProofs.
Import SignalVersion ModelUpdate.

Lemma updateModelN_S : forall k f,
  updateModelN (S k) f = updateModelN k (fst (updateModel true f)).
Proof. reflexivity. Qed.

(** X9: [k] successful runs of [updateModel] on a model whose version is
    ["a.b.n..."] leave the version ["a.b.(n+k)..."] (each call adds one
    to the third part), as long as the numbers stay below [2^53]. *)
Theorem updateModel_repeated : forall k a b n rest,
  no_dot a = true -> no_dot b = true ->
  (rest = EmptyString \/ exists r, rest = String dot r) ->
  (Z.of_nat (n + k) < 2 ^ 53)%Z ->
  updateModelN k (Some {| performance := true;
                          version := Some (a ++ String dot (b ++ String dot (string_of_nat n ++ rest))) |})
  = Some {| performance := true;
            version := Some (a ++ String dot (b ++ String dot (string_of_nat (n + k) ++ rest))) |}.
Proof.
  induction k as [|k IH]; intros a b n rest Ha Hb Hrest Hk.
  - rewrite Nat.add_0_r. reflexivity.
  - rewrite updateModelN_S. cbn [fst updateModel negb performance version].
    rewrite SignalVersionProofs.incrementVersion_patch by assumption.
    replace (n + S k)%nat with (S n + k)%nat by lia.
    apply IH; try assumption. lia.
Qed.

Lemma updateModel_repeated_witness :
  updateModelN 3 (Some {| performance := true; version := Some "1.0.7" |})
  = Some {| performance := true; version := Some "1.0.10" |}.
Proof.
  apply (updateModel_repeated 3 "1" "0" 7 EmptyString).
  - reflexivity.
  - reflexivity.
  - left. reflexivity.
  - vm_compute. reflexivity.
Defined.

End ModelUpdateProofs.

(** ** FlashbotsExecutor: bundle statistics, miner payment *)
Module ExecutorOpsProofs.
Import FlashbotsExecutor FlashbotsExecutorOps ExecutorScenarios.
Local Open Scope Z_scope.

Lemma inclusionLoop_stats : forall relay h t fuel i st,
  let '(r, st', _) := inclusionLoop relay h t i fuel st in
  submitted st' = submitted st /\ failed st' = failed st /\
  included st' = (if success r then S (included st) else included st).
Proof.
  intros relay h t fuel. induction fuel as [|fuel IH]; intros i st; cbn [inclusionLoop].
  - repeat split.
  - destruct (waitForBlock relay (t + Z.of_nat i)) as [[]|msg]; [|repeat split].
    destruct (getBundleStats relay h (t + Z.of_nat i)) as [bs|msg]; [|repeat split].
    destruct (isMined bs); [repeat split|].
    specialize (IH (S i) st).
    destruct (inclusionLoop relay h t (S i) fuel st) as [[r st'] polled]. exact IH.
Qed.

Lemma inclusionLoop_success : forall relay h t fuel i st,
  success (fst (fst (inclusionLoop relay h t i fuel st))) = true ->
  exists b bs, getBundleStats relay h b = inl bs /\ isMined bs = true /\
    t + Z.of_nat i <= b < t + Z.of_nat i + Z.of_nat fuel /\
    fst (fst (inclusionLoop relay h t i fuel st))
      = {| success := true; error := None; bundleHash := h;
           txHash := getTransactionHashFromBundle relay h b; blockNumber := Some b |}.
Proof.
  intros relay h t fuel. induction fuel as [|fuel IH]; intros i st; cbn [inclusionLoop].
  - discriminate.
  - destruct (waitForBlock relay (t + Z.of_nat i)) as [[]|msg]; [|discriminate].
    destruct (getBundleStats relay h (t + Z.of_nat i)) as [bs|msg] eqn:Ebs; [|discriminate].
    destruct (isMined bs) eqn:Em.
    + intros _. exists (t + Z.of_nat i), bs. repeat split; try assumption; lia.
    + specialize (IH (S i) st).
      destruct (inclusionLoop relay h t (S i) fuel st) as [[r st'] polled]. cbn [fst] in *.
      intros Hs. destruct (IH Hs) as (b & bs' & E & M & Hb & Hr).
      exists b, bs'. repeat split; try assumption; lia.
Qed.

Lemma resolveTarget_inl : forall relay target tgt,
  resolveTarget relay target = inl tgt ->
  (exists t, target = Some t /\ t <> 0 /\ tgt = t) \/
  ((target = None \/ target = Some 0) /\ getBlockNumber relay = inl (tgt - 1)).
Proof.
  intros relay target tgt. unfold resolveTarget. destruct target as [t|].
  - destruct (t =? 0) eqn:E.
    + apply Z.eqb_eq in E. subst t. destruct (getBlockNumber relay) as [b|m]; [|discriminate].
      intros H. injection H as <-. right. split; [right; reflexivity|]. f_equal. lia.
    + apply Z.eqb_neq in E. intros H. injection H as <-. left. exists t. auto.
  - destruct (getBlockNumber relay) as [b|m]; [|discriminate].
    intros H. injection H as <-. right. split; [left; reflexivity|]. f_equal. lia.
Qed.

(** X10: every call of [executeBundle] adds one to exactly one of
    [bundleStats.submitted] (the submission returned no truthy error)
    and [bundleStats.failed] (it threw before); [included] grows by one
    exactly when the call returns [success: true], which only happens
    after a submission. *)
Theorem executeBundle_stats : forall relay txs target st,
  let '(r, st', _) := executeBundle relay txs target st in
  ((submitted st' = S (submitted st) /\ failed st' = failed st) \/
   (submitted st' = submitted st /\ failed st' = S (failed st) /\ success r = false)) /\
  included st' = (if success r then S (included st) else included st).
Proof.
  intros relay txs target st. unfold executeBundle.
  destruct (resolveTarget relay target) as [tgt|msg].
  - destruct (prepareBundleTransactions relay txs) as [|tx txs'].
    + split; [right; repeat split | reflexivity].
    + destruct (truthyString _).
      * split; [right; repeat split | reflexivity].
      * unfold waitForBundleInclusion.
        match goal with |- context [inclusionLoop relay ?h tgt 0 3 ?s] =>
          pose proof (inclusionLoop_stats relay h tgt 3 0 s) as H;
          destruct (inclusionLoop relay h tgt 0 3 s) as [[r st'] polled] end.
        cbn [submitted failed included] in H. destruct H as (H1 & H2 & H3).
        split; [left; split; assumption | exact H3].
  - split; [right; repeat split | reflexivity].
Qed.

(** X11: a successful [executeBundle] sent a non-empty bundle to the
    target block (the given one, or the current block + 1 when none or
    0 is given) and got a submission response whose error is falsy; it
    returns that response's [bundleHash] (null when the relay rejected
    the submission with an undefined or empty message), no error, and a
    [blockNumber] among the three blocks from the target on, where the
    bundle was reported mined. *)
Theorem executeBundle_success : forall relay txs target st,
  success (fst (fst (executeBundle relay txs target st))) = true ->
  exists tgt resp b bs,
    ((exists t, target = Some t /\ t <> 0 /\ tgt = t) \/
     ((target = None \/ target = Some 0) /\ getBlockNumber relay = inl (tgt - 1))) /\
    prepareBundleTransactions relay txs <> [] /\
    submitBundle relay (prepareBundleTransactions relay txs) tgt = resp /\
    truthyString (respError resp) = false /\
    getBundleStats relay (respBundleHash resp) b = inl bs /\ isMined bs = true /\
    tgt <= b <= tgt + 2 /\
    fst (fst (executeBundle relay txs target st))
      = {| success := true; error := None; bundleHash := respBundleHash resp;
           txHash := getTransactionHashFromBundle relay (respBundleHash resp) b;
           blockNumber := Some b |}.
Proof.
  intros relay txs target st. unfold executeBundle.
  destruct (resolveTarget relay target) as [tgt|msg] eqn:Et; [|discriminate].
  pose proof (resolveTarget_inl relay target tgt Et) as Htgt.
  destruct (prepareBundleTransactions relay txs) as [|tx txs'] eqn:Ep; [discriminate|].
  destruct (truthyString (respError (submitBundle relay (tx :: txs') tgt))) eqn:Ee;
    [discriminate|].
  unfold waitForBundleInclusion. intros Hs.
  destruct (inclusionLoop_success relay _ tgt 3 0 _ Hs) as (b & bs & E & M & Hb & Hr).
  exists tgt, (submitBundle relay (tx :: txs') tgt), b, bs.
  repeat split; try assumption; try discriminate; lia.
Qed.

Lemma executeBundle_success_witness :
  blockNumber (fst (fst (executeBundle minedRelay ["0xtx"] (Some 101) ExecutorScenarios.zeroStats)))
  = Some 102 /\
  exists tgt resp b bs,
    ((exists t, Some 101 = Some t /\ t <> 0 /\ tgt = t) \/
     ((Some 101 = None \/ Some 101 = Some 0) /\ getBlockNumber minedRelay = inl (tgt - 1))) /\
    prepareBundleTransactions minedRelay ["0xtx"] <> [] /\
    submitBundle minedRelay (prepareBundleTransactions minedRelay ["0xtx"]) tgt = resp /\
    truthyString (respError resp) = false /\
    getBundleStats minedRelay (respBundleHash resp) b = inl bs /\ isMined bs = true /\
    tgt <= b <= tgt + 2 /\
    fst (fst (executeBundle minedRelay ["0xtx"] (Some 101) ExecutorScenarios.zeroStats))
      = {| success := true; error := None; bundleHash := respBundleHash resp;
           txHash := getTransactionHashFromBundle minedRelay (respBundleHash resp) b;
           blockNumber := Some b |}.
Proof.
  split; [vm_compute; reflexivity|].
  apply executeBundle_success. vm_compute. reflexivity.
Defined.

(** X12: [calculateMinerPayment] pays the larger of 10% of the expected
    profit (truncated toward zero) and 0.01 ETH, so never less than 0.01
    ETH, whatever the sign of the profit; for a non-negative expected
    profit the payment exceeds the profit exactly when the profit is
    below 0.01 ETH. *)
Theorem calculateMinerPayment_spec : forall expectedProfit gasUsed,
  calculateMinerPayment expectedProfit gasUsed
    = Z.max (Z.quot (expectedProfit * 10) 100) minPayment /\
  minPayment <= calculateMinerPayment expectedProfit gasUsed /\
  (0 <= expectedProfit ->
   (expectedProfit < calculateMinerPayment expectedProfit gasUsed <-> expectedProfit < minPayment)).
Proof.
  intros p g. unfold calculateMinerPayment.
  assert (Hmax : (if minPayment <? Z.quot (p * 10) 100 then Z.quot (p * 10) 100 else minPayment)
                 = Z.max (Z.quot (p * 10) 100) minPayment).
  { destruct (minPayment <? Z.quot (p * 10) 100) eqn:E;
      [apply Z.ltb_lt in E | apply Z.ltb_ge in E]; lia. }
  rewrite Hmax. split; [reflexivity|]. split; [lia|].
  intros Hp. rewrite Z.quot_div_nonneg by lia.
  pose proof (Z.div_mod (p * 10) 100 ltac:(lia)) as Hd.
  pose proof (Z.mod_pos_bound (p * 10) 100 ltac:(lia)) as Hm.
  unfold minPayment in *. lia.
Qed.

Lemma calculateMinerPayment_spec_witness :
  calculateMinerPayment (10 ^ 15) 0 = minPayment /\
  (10 ^ 15 < calculateMinerPayment (10 ^ 15) 0 <-> 10 ^ 15 < minPayment).
Proof.
  destruct (calculateMinerPayment_spec (10 ^ 15) 0) as (H1 & _ & H3).
  split; [rewrite H1; vm_compute; reflexivity | exact (H3 ltac:(lia))].
Defined.

End ExecutorOpsProofs.

(** ** ArbitrageCalculator.validateOpportunity *)
Module ValidationProofs.
Import ArbitrageCalculator ArbitrageValidation ScannerScenarios.
Local Open Scope Z_scope.

Lemma found_profit : forall quote t0 t1 o,
  findArbitrageOpportunity quote t0 t1 = Some o ->
  exists a1 c, tokens t1 = Some a1 /\
    calculateArbitrageProfit quote (asset o) a1 (amount o) = Some c /\
    cprofit c = estimatedProfit o /\ 0 < estimatedProfit o.
Proof.
  intros quote t0 t1 o H. unfold findArbitrageOpportunity in H.
  destruct (tokens t0) as [a0|] eqn:E0; [|discriminate].
  destruct (tokens t1) as [a1|] eqn:E1; [|discriminate].
  pose proof (ScannerProofs.scanAmounts_inv quote a0 a1) as Hinv.
  destruct (scanAmounts quote a0 a1) as [mp [b|]]; [|discriminate].
  destruct (ether 1 / 1000 <? mp) eqn:Hmp; [|discriminate].
  injection H as <-. cbn [estimatedProfit amount asset].
  apply Z.ltb_lt in Hmp.
  destruct Hinv as (amt & _ & Hcalc & Hprof).
  assert (Hamt : camount b = amt)
    by (eapply ScannerProofs.calculateArbitrageProfit_amount; exact Hcalc).
  exists a1, b. rewrite Hamt. repeat split; try assumption.
  rewrite ScannerProofs.ether_thousandth in Hmp. lia.
Qed.

(** X13: on the market that produced it, an opportunity returned by
    [findArbitrageOpportunity] passes [validateOpportunity] exactly when
    its estimated profit exceeds the gas cost estimate (gas price times
    300000, or 0.01 ETH when the gas price cannot be read): the
    re-quoted profit is the same, within the 5% tolerance. *)
Theorem validateOpportunity_found : forall quote t0 t1 o gasPrice,
  findArbitrageOpportunity quote t0 t1 = Some o ->
  exists a1, tokens t1 = Some a1 /\
    validateOpportunity quote gasPrice o a1 = (calculateGasCosts gasPrice <? estimatedProfit o).
Proof.
  intros quote t0 t1 o gp H.
  destruct (found_profit quote t0 t1 o H) as (a1 & c & E1 & Hc & Hp & Hpos).
  exists a1. split; [exact E1|]. unfold validateOpportunity.
  destruct (estimatedProfit o - calculateGasCosts gp <=? 0) eqn:E.
  - apply Z.leb_le in E. symmetry. apply Z.ltb_ge. lia.
  - apply Z.leb_gt in E. rewrite Hc, Hp. rewrite Z.sub_diag. cbn [Z.abs].
    transitivity true; [|symmetry; apply Z.ltb_lt; lia].
    apply Z.leb_le. rewrite Z.quot_div_nonneg by lia. apply Z.div_pos; lia.
Qed.

Lemma validateOpportunity_found_witness :
  exists a1, tokens "DAI" = Some a1 /\
    validateOpportunity thinQuote (Some (gwei 20))
      (match findArbitrageOpportunity thinQuote "WETH" "DAI" with
       | Some o => o
       | None => {| token0 := ""; token1 := ""; asset := ""; amount := 0; estimatedProfit := 0;
                    profitability := 0; path_router1 := UNISWAP_V2; path_router2 := UNISWAP_V2;
                    minProfit := 0 |}
       end) a1 = false.
Proof.
  assert (Hm : option_map estimatedProfit (findArbitrageOpportunity thinQuote "WETH" "DAI")
               = Some (2 * 10 ^ 15)) by (vm_compute; reflexivity).
  destruct (findArbitrageOpportunity thinQuote "WETH" "DAI") as [o|] eqn:E; [|discriminate].
  destruct (validateOpportunity_found thinQuote "WETH" "DAI" o (Some (gwei 20)) E) as (a1 & Ha & Hv).
  exists a1. split; [exact Ha|]. rewrite Hv.
  injection Hm as Hp. rewrite Hp. vm_compute. reflexivity.
Defined.

End ValidationProofs.

(** ** The orchestrator's scan *)
Module OrchestratorOpsProofs.
Import OrchestratorOps OrchestratorOpsSpecs.

Lemma assessRisk_frame : forall m o now,
  riskFrame (fst (RiskManager.assessRisk m o now)) = riskFrame m.
Proof.
  intros m o now. unfold RiskManager.assessRisk.
  assert (H : riskFrame (RiskManager.set_state m (RiskManager.resetDailyCountersIfNeeded now (RiskManager.riskState m)))
              = riskFrame m).
  { unfold RiskManager.resetDailyCountersIfNeeded.
    destruct (RiskManager.oneDayMs <=? _)%Z; reflexivity. }
  destruct (RiskManager.isPaused _); exact H.
Qed.

Lemma scanPair_frame : forall m now found isInit py,
  riskFrame (fst (scanPair m now found isInit py)) = riskFrame m.
Proof.
  intros m now [o|] isInit py; unfold scanPair; [|reflexivity].
  destruct (Qlt_bool 0 (ArbitrageCalculator.profitability o)); [|reflexivity].
  pose proof (assessRisk_frame m (riskInput o) now) as H.
  destruct (RiskManager.assessRisk m (riskInput o) now) as [m' a]. exact H.
Qed.

(** X14: the orchestrator's scan never records a trade outcome: over any
    sequence of scanned pairs, the risk manager keeps its parameters,
    consecutive-failure count, last trade time, trade counts, pause flag
    and reason, and trade history (only the daily counters may be
    reset).  A manager that starts unpaused with no failures stays so,
    whatever the executions do. *)
Theorem scanPairs_never_records : forall m inputs,
  riskFrame (fst (scanPairs m inputs)) = riskFrame m.
Proof.
  intros m inputs. revert m. induction inputs as [|i rest IH]; intros m; [reflexivity|].
  cbn [scanPairs].
  pose proof (scanPair_frame m (in_now i) (in_found i) (in_isInitialized i) (in_py i)) as H.
  destruct (scanPair m (in_now i) (in_found i) (in_isInitialized i) (in_py i)) as [m' go].
  specialize (IH m'). destruct (scanPairs m' rest) as [m'' ex].
  cbn [fst] in *. rewrite IH. exact H.
Qed.

Lemma Qlt_bool_true : forall x y, Qlt_bool x y = true -> x < y.
Proof.
  intros x y H. unfold Qlt_bool in H. apply negb_true_iff in H.
  apply Qnot_le_lt. intros Hle. apply Qle_bool_iff in Hle. congruence.
Qed.

Lemma fallback_confidence_above : forall st : Q,
  7 # 10 < Qmax (3 # 10) (Qmin (8 # 10) st) -> 7 # 10 < st.
Proof.
  intros st H.
  destruct (Q.max_spec (3 # 10) (Qmin (8 # 10) st)) as [[H1 E]|[H1 E]];
    destruct (Q.min_spec (8 # 10) st) as [[H2 E']|[H2 E']]; Lqa.lra.
Qed.

Lemma fallback_strength_above : forall x y : Q,
  7 # 10 < (Qmin x 1 + Qmin y 1) / 2 -> 2 # 5 < x /\ 2 # 5 < y.
Proof.
  intros x y H.
  assert (E : (Qmin x 1 + Qmin y 1) / 2 == (Qmin x 1 + Qmin y 1) * (1 # 2)) by reflexivity.
  rewrite E in H. clear E.
  pose proof (Q.le_min_l x 1). pose proof (Q.le_min_r x 1).
  pose proof (Q.le_min_l y 1). pose proof (Q.le_min_r y 1).
  split; Lqa.lra.
Qed.

Lemma scanPair_fallback_gate : forall m now o isInit py m',
  scanPair m now (Some o) isInit py = (m', true) ->
  (isInit = false \/ exists msg, py = QuantumSignalProcessor.PyError msg) ->
  (1 # 25 < ArbitrageCalculator.profitability o)%Q /\
  (4 * 10 ^ 19 < ArbitrageCalculator.amount o)%Z.
Proof.
  intros m now o isInit py m' H Hfb. unfold scanPair in H.
  destruct (Qlt_bool 0 (ArbitrageCalculator.profitability o)); [|discriminate].
  destruct (RiskManager.assessRisk m (riskInput o) now) as [m1 ra].
  injection H as _ H. apply andb_true_iff in H as [_ H]. apply Qlt_bool_true in H.
  assert (Hs : QuantumSignalProcessor.processSignal isInit py (signalInput o)
               = QuantumSignalProcessor.getFallbackSignal (signalInput o)).
  { destruct Hfb as [->|[msg ->]]; [reflexivity|]. destruct isInit; reflexivity. }
  rewrite Hs in H. unfold QuantumSignalProcessor.getFallbackSignal in H.
  cbn [QuantumSignalProcessor.confidence signalInput QuantumSignalProcessor.profitability
       QuantumSignalProcessor.amount] in H.
  apply fallback_confidence_above, fallback_strength_above in H as [Hp Ha].
  split.
  - apply Qmult_lt_r with (z := 10); [reflexivity|].
    apply Qle_lt_trans with (2 # 5); [apply Qle_lteq; right; reflexivity | exact Hp].
  - rewrite Zlt_Qlt. apply Qmult_lt_r with (z := / inject_Z (10 ^ 20)); [reflexivity|].
    apply Qle_lt_trans with (2 # 5); [apply Qle_lteq; right; reflexivity | exact Ha].
Qed.

Lemma assessRisk_approved_single_trade : forall m o now,
  RiskManager.approved (snd (RiskManager.assessRisk m o now)) = true ->
  (Z.quot (RiskManager.amount o * RiskManager.maxSlippage (RiskManager.riskParams m)) 100
     <= RiskManager.maxSingleTradeLoss (RiskManager.riskParams m))%Z.
Proof.
  intros m o now. unfold RiskManager.assessRisk.
  destruct (RiskManager.isPaused _); cbn [snd RiskManager.approved]; [discriminate|].
  intros H. apply andb_true_iff in H as [H _]. rewrite forallb_forall in H.
  specialize (H _ ltac:(unfold RiskManager.riskChecks; right; right; left; reflexivity)).
  cbn [RiskManager.checkSingleTradeLossLimit RiskManager.mkCheck RiskManager.passed] in H.
  apply Z.leb_le in H. exact H.
Qed.

(** X15: with the default risk parameters, the scan never executes on a
    fallback signal (processor not initialised, or the Python script
    failed): a fallback confidence above 0.7 needs an amount above
    40 ETH, while the single-trade loss check (5% of the amount at most
    0.1 ETH) rejects every amount above about 2 ETH. *)
Theorem scanPair_fallback_never_executes : forall m now found isInit py,
  RiskManager.riskParams m = RiskManager.defaultRiskParams ->
  (isInit = false \/ exists msg, py = QuantumSignalProcessor.PyError msg) ->
  snd (scanPair m now found isInit py) = false.
Proof.
  intros m now found isInit py Hp Hfb.
  destruct (snd (scanPair m now found isInit py)) eqn:E; [|reflexivity].
  destruct found as [o|]; [|discriminate].
  destruct (scanPair m now (Some o) isInit py) as [m' go] eqn:Es. cbn [snd] in E. subst go.
  destruct (scanPair_fallback_gate m now o isInit py m' Es Hfb) as [_ Ha].
  unfold scanPair in Es.
  destruct (Qlt_bool 0 (ArbitrageCalculator.profitability o)); [|discriminate].
  pose proof (assessRisk_approved_single_trade m (riskInput o) now) as Hs.
  destruct (RiskManager.assessRisk m (riskInput o) now) as [m1 ra].
  injection Es as _ Es. apply andb_true_iff in Es as [Ea _].
  specialize (Hs Ea). rewrite Hp in Hs. cbn [riskInput RiskManager.amount] in Hs.
  cbn [RiskManager.maxSlippage RiskManager.maxSingleTradeLoss RiskManager.defaultRiskParams] in Hs.
  change (ether 1 / 10)%Z with 100000000000000000%Z in Hs.
  change (4 * 10 ^ 19)%Z with 40000000000000000000%Z in Ha.
  rewrite Z.quot_div_nonneg in Hs by lia.
  pose proof (Z.mod_pos_bound (ArbitrageCalculator.amount o * 5) 100 ltac:(lia)).
  pose proof (Z.div_mod (ArbitrageCalculator.amount o * 5) 100 ltac:(lia)).
  lia.
Qed.

Lemma scanPair_fallback_never_executes_witness :
  snd (scanPair (RiskManager.initialManager 0) 120000 (Some fallbackOpportunity) false
         (QuantumSignalProcessor.PyError "timeout")) = false.
Proof.
  apply scanPair_fallback_never_executes.
  - reflexivity.
  - left. reflexivity.
Defined.

End OrchestratorOpsProofs.

(** ** DatabaseManager: appending, filters, reports *)
Module DatabaseProofs.
Import DatabaseManager DatabaseSpecs.
Local Open Scope Z_scope.
Local Open Scope list_scope.

Lemma insertDesc_perm : forall x l, Permutation (insertDesc x l) (x :: l).
Proof.
  intros x l; induction l as [|y l IH]; cbn [insertDesc]; [reflexivity|].
  destruct (timestamp x <? timestamp y).
  - rewrite IH. apply perm_swap.
  - reflexivity.
Qed.

Lemma sortDesc_perm : forall l, Permutation (sortDesc l) l.
Proof.
  induction l as [|x l IH]; cbn [sortDesc]; [reflexivity|].
  rewrite insertDesc_perm. now apply perm_skip.
Qed.

Lemma insertDesc_hdrel : forall a x l,
  HdRel newerOrSame a l -> newerOrSame a x -> HdRel newerOrSame a (insertDesc x l).
Proof.
  intros a x [|y l] H1 H2; cbn [insertDesc].
  - now constructor.
  - destruct (timestamp x <? timestamp y).
    + inversion H1; now constructor.
    + inversion H1; constructor; unfold newerOrSame in *; lia.
Qed.

Lemma insertDesc_sorted : forall x l, Sorted newerOrSame l -> Sorted newerOrSame (insertDesc x l).
Proof.
  intros x l; induction l as [|y l IH]; intros H; cbn [insertDesc].
  - apply Sorted_cons; constructor.
  - destruct (Z.ltb_spec (timestamp x) (timestamp y)).
    + apply Sorted_inv in H as [H1 H2]. constructor; [now apply IH|].
      apply insertDesc_hdrel; [exact H2|]. unfold newerOrSame; lia.
    + constructor; [exact H|]. constructor. unfold newerOrSame; lia.
Qed.

Lemma sortDesc_sorted : forall l, Sorted newerOrSame (sortDesc l).
Proof.
  induction l as [|x l IH]; cbn [sortDesc]; [constructor|].
  now apply insertDesc_sorted.
Qed.

Lemma newerOrSame_trans : forall a b c, newerOrSame a b -> newerOrSame b c -> newerOrSame a c.
Proof. unfold newerOrSame; intros; lia. Qed.

Lemma sorted_split : forall s k r o,
  Sorted newerOrSame s -> In r (firstn k s) -> In o (skipn k s) -> newerOrSame r o.
Proof.
  intros s k r o Hs. apply Sorted_StronglySorted in Hs; [|exact newerOrSame_trans].
  revert k; induction Hs as [|y s Hs IH Hall]; intros k Hr Ho.
  - destruct k; destruct Hr.
  - destruct k as [|k]; [destruct Hr|].
    cbn [firstn skipn] in Hr, Ho. destruct Hr as [<-|Hr].
    + rewrite Forall_forall in Hall. apply Hall. rewrite <- (firstn_skipn k s). apply in_or_app. now right.
    + eapply IH; eauto.
Qed.

Lemma slice0_firstn : forall {A} (l : list A) n,
  slice0 l n = firstn (if n <? 0 then Z.to_nat (Z.of_nat (length l) + n) else Z.to_nat n) l.
Proof. intros A l n. unfold slice0. destruct (n <? 0); reflexivity. Qed.

Lemma filter_filter_andb : forall {A} (p q : A -> bool) l,
  filter p (filter q l) = filter (fun x => q x && p x) l.
Proof.
  intros A p q l; induction l as [|x l IH]; cbn [filter]; [reflexivity|].
  destruct (q x); cbn [andb filter]; [destruct (p x)|]; rewrite ?IH; reflexivity.
Qed.

(** The four filters of [applyFilters] are the one filter [matches]. *)
Lemma applyFilters_unfold : forall data fs,
  applyFilters data fs =
  sortDesc (let m := filter (matches fs) data in
            if limit fs =? 0 then m else slice0 m (limit fs)).
Proof.
  intros data fs. unfold applyFilters.
  assert (E : (if String.eqb (f_asset fs) "" then
      match f_success fs with
      | Some b => filter (fun item => match success item with
                                      | Some b' => Bool.eqb b' b | None => false end)
          (match endDate fs with
           | Some d => filter (fun item => timestamp item <=? d)
               (match startDate fs with
                | Some d0 => filter (fun item => d0 <=? timestamp item) data
                | None => data end)
           | None => match startDate fs with
                     | Some d0 => filter (fun item => d0 <=? timestamp item) data
                     | None => data end end)
      | None => match endDate fs with
           | Some d => filter (fun item => timestamp item <=? d)
               (match startDate fs with
                | Some d0 => filter (fun item => d0 <=? timestamp item) data
                | None => data end)
           | None => match startDate fs with
                     | Some d0 => filter (fun item => d0 <=? timestamp item) data
                     | None => data end end
      end
    else filter (fun item => match asset item with
                             | Some a => String.eqb a (f_asset fs) | None => false end)
      (match f_success fs with
      | Some b => filter (fun item => match success item with
                                      | Some b' => Bool.eqb b' b | None => false end)
          (match endDate fs with
           | Some d => filter (fun item => timestamp item <=? d)
               (match startDate fs with
                | Some d0 => filter (fun item => d0 <=? timestamp item) data
                | None => data end)
           | None => match startDate fs with
                     | Some d0 => filter (fun item => d0 <=? timestamp item) data
                     | None => data end end)
      | None => match endDate fs with
           | Some d => filter (fun item => timestamp item <=? d)
               (match startDate fs with
                | Some d0 => filter (fun item => d0 <=? timestamp item) data
                | None => data end)
           | None => match startDate fs with
                     | Some d0 => filter (fun item => d0 <=? timestamp item) data
                     | None => data end end
      end)) = filter (matches fs) data).
  { unfold matches.
    destruct (startDate fs), (endDate fs), (f_success fs), (String.eqb (f_asset fs) "");
      rewrite ?filter_filter_andb;
      first [ symmetry; apply forallb_filter_id; apply forallb_forall; intros; reflexivity
            | apply filter_ext; intros; btauto ]. }
  rewrite E. reflexivity.
Qed.

Lemma in_firstn : forall {A} k (l : list A) x, In x (firstn k l) -> In x l.
Proof.
  intros A k l x H. rewrite <- (firstn_skipn k l). apply in_or_app. now left.
Qed.

Lemma sorted_firstn : forall k s, Sorted newerOrSame s -> Sorted newerOrSame (firstn k s).
Proof.
  intros k s Hs. apply Sorted_StronglySorted in Hs; [|exact newerOrSame_trans].
  apply StronglySorted_Sorted. revert k.
  induction Hs as [|y s Hs IH Hall]; intros [|k]; cbn [firstn]; try constructor.
  - apply IH.
  - apply Forall_forall. intros z Hz. rewrite Forall_forall in Hall.
    apply Hall. eapply in_firstn. exact Hz.
Qed.

Lemma applyFilters_in : forall data fs r,
  In r (applyFilters data fs) -> In r data /\ matches fs r = true.
Proof.
  intros data fs r H. rewrite applyFilters_unfold in H.
  apply (Permutation_in _ (sortDesc_perm _)) in H.
  assert (Hm : In r (filter (matches fs) data)).
  { destruct (limit fs =? 0); [exact H|].
    rewrite slice0_firstn in H. eapply in_firstn. exact H. }
  now apply filter_In in Hm.
Qed.

Lemma appendData_suffix : forall w f x f',
  appendData w f x = Some f' -> exists pre, readData f ++ [x] = pre ++ readData f'.
Proof.
  intros w f x f'. unfold appendData.
  destruct w; [|discriminate]. intros H; injection H as <-. cbn [readData].
  destruct (Nat.ltb maxRecords (length (readData f ++ [x]))).
  - exists (firstn (length (readData f ++ [x]) - maxRecords) (readData f ++ [x])).
    symmetry. apply firstn_skipn.
  - now exists [].
Qed.

(** X16: [appendData] on a writable file keeps the last
    [min (n + 1) 10000] records of the old ones followed by the new
    record: the oldest ones are dropped first. *)
Theorem appendData_keeps_latest : forall f x,
  exists l', appendData true f x = Some (Some l') /\
    length l' = Nat.min (S (length (readData f))) maxRecords /\
    exists pre, readData f ++ [x] = pre ++ l'.
Proof.
  intros f x. unfold appendData.
  rewrite length_app. cbn [length]. rewrite Nat.add_1_r.
  destruct (Nat.ltb_spec maxRecords (S (length (readData f)))) as [Hlt|Hge].
  - eexists; split; [reflexivity|]. split.
    + rewrite length_skipn, length_app. cbn [length]. lia.
    + exists (firstn (length (readData f ++ [x]) - maxRecords) (readData f ++ [x])).
      rewrite length_app. cbn [length]. rewrite Nat.add_1_r.
      symmetry. apply firstn_skipn.
  - eexists; split; [reflexivity|]. split.
    + rewrite length_app. cbn [length]. lia.
    + now exists [].
Qed.

(** X17: [applyFilters] returns, sorted by decreasing date, the records
    that pass every filter, cut to [limit] in storage order before the
    sort (a negative limit drops records from the end). *)
Theorem applyFilters_spec : forall data fs,
  Sorted newerOrSame (applyFilters data fs) /\
  Permutation (applyFilters data fs)
    (let m := filter (matches fs) data in
     if limit fs =? 0 then m else slice0 m (limit fs)).
Proof.
  intros data fs. rewrite applyFilters_unfold. split.
  - apply sortDesc_sorted.
  - apply sortDesc_perm.
Qed.

(** X18: a [limit] query returns the first [limit] stored records in
    storage order (the oldest ones, the file being appended to), not the
    newest: right after [appendData], the stored records are a suffix
    [old] of the previous records followed by the new one, and a
    positive limit below the number of stored records returns the first
    [limit] records of [old], never the new record. *)
Theorem getExecutions_limit_oldest : forall f x f' n,
  appendData true f x = Some f' ->
  0 < n ->
  (Z.to_nat n < length (readData f'))%nat ->
  exists old, readData f' = old ++ [x] /\
    (exists pre, readData f = pre ++ old) /\
    Permutation (getExecutions f' (limitOnly n)) (firstn (Z.to_nat n) old).
Proof.
  intros f x f' n Ha Hn Hlen.
  destruct (appendData_suffix true f x f' Ha) as [pre Hpre].
  destruct (readData f') as [|y l] eqn:Ef'; [cbn [length] in Hlen; lia|].
  destruct (exists_last (l := y :: l) ltac:(discriminate)) as (old & z & Eold).
  rewrite Eold in Hpre, Hlen. rewrite app_assoc in Hpre.
  apply app_inj_tail in Hpre. destruct Hpre as [Hold <-].
  exists old. split; [exact Eold|]. split; [exists pre; exact Hold|].
  unfold getExecutions.
  destruct (applyFilters_spec (readData f') (limitOnly n)) as [_ Hp].
  rewrite Hp. cbn [limit limitOnly].
  replace (n =? 0) with false by (symmetry; apply Z.eqb_neq; lia).
  assert (Hf : filter (matches (limitOnly n)) (readData f') = readData f').
  { apply forallb_filter_id, forallb_forall. intros r _. reflexivity. }
  rewrite Hf. rewrite slice0_firstn.
  replace (n <? 0) with false by (symmetry; apply Z.ltb_ge; lia).
  rewrite Ef', Eold. rewrite length_app in Hlen. cbn [length] in Hlen.
  rewrite firstn_app. replace (Z.to_nat n - length old)%nat with 0%nat by lia.
  rewrite app_nil_r. reflexivity.
Qed.

(** X19: [getDailyReports] returns records sorted by decreasing date,
    [min limit n] of them ([n + limit] for a negative limit), and every
    record it leaves out is at most as recent as every record it returns. *)
Theorem getDailyReports_newest : forall f lim,
  let res := getDailyReports f lim in
  Sorted newerOrSame res /\
  length res = Nat.min (if lim <? 0 then Z.to_nat (Z.of_nat (length (readData f)) + lim)
                        else Z.to_nat lim) (length (readData f)) /\
  exists rest, Permutation (readData f) (res ++ rest) /\
    forall r o, In r res -> In o rest -> timestamp o <= timestamp r.
Proof.
  intros f lim res. unfold res, getDailyReports.
  rewrite slice0_firstn.
  rewrite (Permutation_length (sortDesc_perm (readData f))).
  set (k := if lim <? 0 then _ else _).
  pose proof (sortDesc_sorted (readData f)) as Hs.
  split; [|split].
  - apply sorted_firstn. exact Hs.
  - rewrite length_firstn, (Permutation_length (sortDesc_perm (readData f))). reflexivity.
  - exists (skipn k (sortDesc (readData f))). split.
    + rewrite firstn_skipn. symmetry. apply sortDesc_perm.
    + intros r o Hr Ho. exact (sorted_split _ k r o Hs Hr Ho).
Qed.

Lemma getExecutions_limit_oldest_witness :
  exists old, [row 1; row 2; row 3] = old ++ [row 3] /\
    (exists pre, [row 1; row 2] = pre ++ old) /\
    Permutation (getExecutions (Some [row 1; row 2; row 3]) (limitOnly 2)) (firstn 2 old).
Proof.
  apply (getExecutions_limit_oldest (Some [row 1; row 2]) (row 3) (Some [row 1; row 2; row 3]) 2).
  - vm_compute. reflexivity.
  - lia.
  - apply Nat.ltb_lt. vm_compute. reflexivity.
Defined.

End DatabaseProofs.

(** ** The orchestrator's executeArbitrage *)
Module ExecuteArbitrageProofs.
Import OrchestratorOps OrchestratorOpsSpecs.
Local Open Scope Z_scope.
Local Open Scope list_scope.

(** X20: every call counts one execution; the successful count and the
    total profit grow, by one and by the estimated profit, only when the
    contract built the transaction and the bundle was included, and
    otherwise they and the executions file are left as they were. *)
Theorem executeArbitrage_stats : forall c relay db now o w,
  let s := stats w in
  let w' := fst (executeArbitrage c relay db now o w) in
  totalExecutions (stats w') = S (totalExecutions s) /\
  ((successfulExecutions (stats w') = S (successfulExecutions s) /\
    totalProfit (stats w') = totalProfit s + ArbitrageCalculator.estimatedProfit o /\
    exists amt tx, populateExecuteArbitrage c (ArbitrageCalculator.asset o) amt = inl tx /\
      FlashbotsExecutor.success
        (fst (fst (FlashbotsExecutor.executeBundle relay [tx] None (bundleStats w)))) = true)
   \/ (successfulExecutions (stats w') = successfulExecutions s /\
       totalProfit (stats w') = totalProfit s /\ executions w' = executions w)).
Proof.
  intros c relay db now o w s w'. unfold w', s, executeArbitrage.
  destruct (getAvailableLiquidity c (ArbitrageCalculator.asset o)) as [liq|e];
    [|cbn; split; [reflexivity|right; auto]].
  set (amt := if _ <? _ then _ else _).
  destruct (populateExecuteArbitrage c (ArbitrageCalculator.asset o) amt) as [tx|e] eqn:Ep;
    [|cbn; split; [reflexivity|right; auto]].
  destruct (FlashbotsExecutor.executeBundle relay [tx] None (bundleStats w)) as [[res bs] z] eqn:Eb.
  destruct (FlashbotsExecutor.success res) eqn:Es.
  - split; [destruct (DatabaseManager.appendData _ _ _); reflexivity|].
    left. split; [destruct (DatabaseManager.appendData _ _ _); reflexivity|].
    split; [destruct (DatabaseManager.appendData _ _ _); reflexivity|].
    exists amt, tx. split; [exact Ep|]. rewrite Eb. exact Es.
  - cbn. split; [reflexivity|right; auto].
Qed.

(** X21: an execution that succeeds may trade less than the
    opportunity's amount, as the amount is capped at 90% of the pool's
    available liquidity, yet the total profit is credited with the full
    estimated profit of the opportunity, not with the profit of the
    amount traded. *)
Theorem executeArbitrage_capped_profit : forall c relay db now o w w' amt,
  executeArbitrage c relay db now o w = (w', Some amt) ->
  successfulExecutions (stats w') = S (successfulExecutions (stats w)) ->
  amt <= ArbitrageCalculator.amount o /\
  (exists liq, getAvailableLiquidity c (ArbitrageCalculator.asset o) = inl liq /\
               amt <= Z.quot (liq * 90) 100) /\
  totalProfit (stats w') = totalProfit (stats w) + ArbitrageCalculator.estimatedProfit o.
Proof.
  intros c relay db now o w w' amt. unfold executeArbitrage.
  destruct (getAvailableLiquidity c (ArbitrageCalculator.asset o)) as [liq|e]; [|discriminate].
  set (amt0 := if _ <? _ then _ else _).
  assert (Hcap : amt0 <= ArbitrageCalculator.amount o /\ amt0 <= Z.quot (liq * 90) 100).
  { unfold amt0. destruct (Z.ltb_spec (Z.quot (liq * 90) 100) (ArbitrageCalculator.amount o)); lia. }
  destruct (populateExecuteArbitrage _ _ _) as [tx|e].
  - destruct (FlashbotsExecutor.executeBundle _ _ _ _) as [[res bs] z].
    destruct (FlashbotsExecutor.success res).
    + destruct (DatabaseManager.appendData _ _ _);
        intros H; injection H as <- <-; intros _; cbn [stats totalProfit];
        (split; [apply Hcap|]); (split; [exists liq; split; [reflexivity | apply Hcap]|]);
        reflexivity.
    + intros H; injection H as <- <-. cbn [stats successfulExecutions]. lia.
  - intros H; injection H as <- <-. cbn [stats successfulExecutions]. lia.
Qed.

Lemma executeArbitrage_capped_profit_witness :
  ether 45 < ArbitrageCalculator.amount OrchestratorOpsSpecs.fallbackOpportunity /\
  (ether 45 <= ArbitrageCalculator.amount OrchestratorOpsSpecs.fallbackOpportunity /\
   (exists liq, getAvailableLiquidity liquidContract
                  (ArbitrageCalculator.asset OrchestratorOpsSpecs.fallbackOpportunity) = inl liq /\
                ether 45 <= Z.quot (liq * 90) 100) /\
   totalProfit (stats (fst (executeArbitrage liquidContract ExecutorScenarios.minedRelay true 0
                              OrchestratorOpsSpecs.fallbackOpportunity (worldWith None))))
   = totalProfit (stats (worldWith None))
     + ArbitrageCalculator.estimatedProfit OrchestratorOpsSpecs.fallbackOpportunity).
Proof.
  split; [vm_compute; reflexivity|].
  apply (executeArbitrage_capped_profit liquidContract ExecutorScenarios.minedRelay true 0
           OrchestratorOpsSpecs.fallbackOpportunity (worldWith None)
           (fst (executeArbitrage liquidContract ExecutorScenarios.minedRelay true 0
                   OrchestratorOpsSpecs.fallbackOpportunity (worldWith None)))
           (ether 45)).
  - vm_compute. reflexivity.
  - vm_compute. reflexivity.
Defined.

(** X22: the records [executeArbitrage] logs carry no [success] field, so
    an executions query that filters on [success] never returns one:
    after the call, such a query only returns records that were stored
    before it. *)
Theorem executeArbitrage_success_query : forall c relay db now o w fs r,
  DatabaseManager.f_success fs <> None ->
  In r (DatabaseManager.getExecutions (executions (fst (executeArbitrage c relay db now o w))) fs) ->
  In r (DatabaseManager.readData (executions w)).
Proof.
  intros c relay db now o w fs r Hf.
  assert (Hk : forall f, In r (DatabaseManager.getExecutions f fs) -> In r (DatabaseManager.readData f)
                        /\ DatabaseSpecs.matches fs r = true)
    by (intros f; apply DatabaseProofs.applyFilters_in).
  unfold executeArbitrage.
  destruct (getAvailableLiquidity c (ArbitrageCalculator.asset o)) as [liq|e];
    [|intros H; apply Hk in H; apply H].
  destruct (populateExecuteArbitrage _ _ _) as [tx|e]; [|intros H; apply Hk in H; apply H].
  destruct (FlashbotsExecutor.executeBundle _ _ _ _) as [[res bs] z].
  destruct (FlashbotsExecutor.success res); [|intros H; apply Hk in H; apply H].
  destruct (DatabaseManager.appendData db (executions w) (executionRow o now)) as [f'|] eqn:Ea;
    [|intros H; apply Hk in H; apply H].
  intros H; apply Hk in H as [Hin Hm]. cbn [executions] in Hin.
  destruct (DatabaseProofs.appendData_suffix _ _ _ _ Ea) as [pre Hpre].
  assert (Hr : In r (DatabaseManager.readData (executions w) ++ [executionRow o now])).
  { rewrite Hpre. apply in_or_app. now right. }
  apply in_app_or in Hr as [Hr|[<-|[]]]; [exact Hr|].
  unfold DatabaseSpecs.matches in Hm. destruct (DatabaseManager.f_success fs); [|congruence].
  cbn [executionRow DatabaseManager.success] in Hm.
  rewrite !andb_false_r in Hm. discriminate.
Qed.

Lemma executeArbitrage_success_query_witness :
  In failedRow (DatabaseManager.readData (executions (worldWith (Some [failedRow])))).
Proof.
  apply (executeArbitrage_success_query liquidContract ExecutorScenarios.minedRelay true 10
           OrchestratorOpsSpecs.fallbackOpportunity (worldWith (Some [failedRow])) failedOnly).
  - discriminate.
  - vm_compute. left. reflexivity.
Defined.

End ExecuteArbitrageProofs.

(** ** PriceMonitor.addToHistory *)
Module PriceHistoryProofs.
Import PriceMonitorOps.
Local Open Scope nat_scope.
Local Open Scope list_scope.

(** X23: [addToHistory] changes only the given symbol's history, which
    becomes the last [min (n + 1) 1000] entries of the old history
    followed by the new price. *)
Theorem addToHistory_spec : forall h sym p,
  let old := match h sym with Some l => l | None => [] end in
  (forall s, s <> sym -> addToHistory h sym p s = h s) /\
  exists l', addToHistory h sym p sym = Some l' /\
    length l' = Nat.min (S (length old)) 1000 /\
    exists pre, old ++ [p] = pre ++ l'.
Proof.
  intros h sym p old. split.
  - intros s Hs. unfold addToHistory.
    destruct (String.eqb_spec s sym); [contradiction|reflexivity].
  - unfold addToHistory. rewrite String.eqb_refl. fold old.
    eexists; split; [reflexivity|].
    rewrite length_app. cbn [length]. rewrite Nat.add_1_r.
    destruct (Nat.ltb_spec 1000 (S (length old))).
    + split.
      * rewrite length_skipn, length_app. cbn [length]. lia.
      * exists (firstn (length (old ++ [p]) - 1000) (old ++ [p])).
        rewrite length_app. cbn [length]. rewrite Nat.add_1_r.
        symmetry. apply firstn_skipn.
    + split; [rewrite length_app; cbn [length]; lia|]. now exists [].
Qed.

(** X24: the bound of 1000 entries is invisible to [getPriceHistory]: right
    after [addToHistory], a query for at most 1000 entries returns the
    same entries as on the untruncated history. *)
Theorem getPriceHistory_after_add : forall h sym p n,
  1 <= n <= 1000 ->
  getPriceHistoryOf (addToHistory h sym p) sym n =
  PriceMonitor.getPriceHistory (match h sym with Some l => l | None => [] end ++ [p]) n.
Proof.
  intros h sym p n Hn. unfold getPriceHistoryOf, addToHistory.
  rewrite String.eqb_refl.
  set (full := match h sym with Some l => l | None => [] end ++ [p]).
  unfold PriceMonitor.getPriceHistory, PriceMonitor.lastN.
  destruct n as [|n']; [lia|].
  destruct (Nat.ltb_spec 1000 (length full)); [|reflexivity].
  rewrite skipn_skipn, length_skipn. f_equal. lia.
Qed.

Lemma getPriceHistory_after_add_witness :
  getPriceHistoryOf (addToHistory (fun _ => Some [1; 2]%Q) "WETH" 3%Q) "WETH" 2 = [2; 3]%Q.
Proof.
  rewrite (getPriceHistory_after_add (fun _ => Some [1; 2]%Q) "WETH" 3%Q 2) by lia.
  reflexivity.
Defined.

End PriceHistoryProofs.

(** ** DatabaseManager: cleanOldData, getStatistics *)
Module DatabaseMaintenanceProofs.
Import DatabaseManager DatabaseSpecs.
Local Open Scope Z_scope.
Local Open Scope list_scope.

Lemma filter_full : forall {A} (p : A -> bool) l,
  length (filter p l) = length l -> filter p l = l.
Proof.
  intros A p l; induction l as [|x l IH]; cbn [filter length]; [reflexivity|].
  destruct (p x); cbn [length]; intros H.
  - f_equal. apply IH. lia.
  - pose proof (filter_length_le p l) as Hle. lia.
Qed.

Lemma cleanData_spec : forall w c f f',
  cleanData w c f = Some f' ->
  readData f' = filter (fun item => c <=? timestamp item) (readData f).
Proof.
  intros w c f f'. unfold cleanData.
  destruct (Nat.ltb_spec (length (filter (fun item => c <=? timestamp item) (readData f)))
                         (length (readData f))) as [Hlt|Hge].
  - destruct w; [|discriminate]. intros H; injection H as <-. reflexivity.
  - intros H; injection H as <-. symmetry. apply filter_full.
    pose proof (filter_length_le (fun item => c <=? timestamp item) (readData f)). lia.
Qed.

Lemma cleanOldData_executions : forall w c st,
  readData (executionsFile (fst (cleanOldData w c st))) = readData (executionsFile st) \/
  readData (executionsFile (fst (cleanOldData w c st))) =
    filter (fun item => c <=? timestamp item) (readData (executionsFile st)).
Proof.
  intros w c st. unfold cleanOldData.
  destruct (cleanData w c (executionsFile st)) as [e|] eqn:He; [|now left].
  right. rewrite <- (cleanData_spec _ _ _ _ He).
  destruct (cleanData w c (opportunitiesFile _)) as [o|];
    [destruct (cleanData w c (errorsFile _)) as [r|]|]; reflexivity.
Qed.

(** X25: when [cleanOldData] completes, each of the three files holds
    exactly its records dated at or after the cutoff, in their stored
    order (a file with nothing to drop, or unreadable, is not
    rewritten and reads the same). *)
Theorem cleanOldData_keeps_recent : forall w c st st',
  cleanOldData w c st = (st', true) ->
  readData (executionsFile st') = filter (fun item => c <=? timestamp item) (readData (executionsFile st)) /\
  readData (opportunitiesFile st') = filter (fun item => c <=? timestamp item) (readData (opportunitiesFile st)) /\
  readData (errorsFile st') = filter (fun item => c <=? timestamp item) (readData (errorsFile st)).
Proof.
  intros w c st st'. unfold cleanOldData.
  destruct (cleanData w c (executionsFile st)) as [e|] eqn:He; [|discriminate].
  cbn [opportunitiesFile errorsFile executionsFile].
  destruct (cleanData w c (opportunitiesFile st)) as [o|] eqn:Ho; [|discriminate].
  destruct (cleanData w c (errorsFile st)) as [r|] eqn:Hr; [|discriminate].
  intros H; injection H as <-. cbn [opportunitiesFile errorsFile executionsFile].
  split; [|split]; eapply cleanData_spec; eassumption.
Qed.

Lemma cleanOldData_keeps_recent_witness :
  readData (executionsFile (fst (cleanOldData true 3 oldAndNew))) = [row 5] /\
  readData (opportunitiesFile (fst (cleanOldData true 3 oldAndNew))) = [].
Proof.
  destruct (cleanOldData_keeps_recent true 3 oldAndNew (fst (cleanOldData true 3 oldAndNew)))
    as [He [Ho _]].
  - vm_compute. reflexivity.
  - rewrite He, Ho. split; reflexivity.
Defined.

Lemma applyFilters_after_cutoff : forall c fs d l,
  startDate fs = Some d -> c <= d ->
  applyFilters (filter (fun item => c <=? timestamp item) l) fs = applyFilters l fs.
Proof.
  intros c fs d l Hs Hc.
  assert (E : filter (fun item => d <=? timestamp item) (filter (fun item => c <=? timestamp item) l)
              = filter (fun item => d <=? timestamp item) l).
  { rewrite DatabaseProofs.filter_filter_andb. apply filter_ext. intros x.
    destruct (Z.leb_spec d (timestamp x)), (Z.leb_spec c (timestamp x)); cbn; lia. }
  unfold applyFilters. rewrite Hs, E. reflexivity.
Qed.

(** X26: [cleanOldData] does not change the answer of an executions
    query whose [startDate] is at or after the cutoff, whether the call
    completes or throws. *)
Theorem cleanOldData_preserves_recent_queries : forall w c st fs d,
  startDate fs = Some d -> c <= d ->
  getExecutions (executionsFile (fst (cleanOldData w c st))) fs =
  getExecutions (executionsFile st) fs.
Proof.
  intros w c st fs d Hs Hc. unfold getExecutions.
  destruct (cleanOldData_executions w c st) as [E|E]; rewrite E; [reflexivity|].
  eapply applyFilters_after_cutoff; eassumption.
Qed.

Lemma cleanOldData_preserves_recent_queries_witness :
  getExecutions (executionsFile (fst (cleanOldData true 3 oldAndNew))) sinceFour =
  getExecutions (executionsFile oldAndNew) sinceFour.
Proof.
  apply (cleanOldData_preserves_recent_queries true 3 oldAndNew sinceFour 4).
  - reflexivity.
  - lia.
Defined.

(** X27: the records [executeArbitrage] logs have no [success] field, so
    the [total.successfulExecutions] count of [getStatistics] never
    grows through [executeArbitrage], even when the bot counts a
    successful execution (the 10000-record bound may even evict a
    successful record). *)
Theorem executeArbitrage_statistics_success : forall c relay db now o w opps errs,
  (total_successfulExecutions
    (getStatisticsTotals {| executionsFile := OrchestratorOps.executions
                                 (fst (OrchestratorOps.executeArbitrage c relay db now o w));
                            opportunitiesFile := opps; errorsFile := errs |}) <=
  total_successfulExecutions
    (getStatisticsTotals {| executionsFile := OrchestratorOps.executions w;
                            opportunitiesFile := opps; errorsFile := errs |}))%nat.
Proof.
  intros c relay db now o w opps errs. unfold getStatisticsTotals.
  cbn [total_successfulExecutions executionsFile]. fold (successCount (readData (OrchestratorOps.executions w))).
  assert (Hk : forall f, (f = OrchestratorOps.executions w \/
              exists pre, readData (OrchestratorOps.executions w) ++ [OrchestratorOps.executionRow o now]
                          = pre ++ readData f) ->
              (successCount (readData f) <= successCount (readData (OrchestratorOps.executions w)))%nat).
  { intros f Hf. destruct Hf as [->|[pre Hpre]]; [lia|].
    assert (Hs : successCount (pre ++ readData f) =
                 (successCount pre + successCount (readData f))%nat)
      by (unfold successCount; rewrite filter_app, length_app; reflexivity).
    rewrite <- Hpre in Hs. unfold successCount in Hs at 1.
    rewrite filter_app, length_app in Hs. cbn [OrchestratorOps.executionRow success filter length] in Hs.
    fold (successCount (readData (OrchestratorOps.executions w))) in Hs. lia. }
  apply Hk. unfold OrchestratorOps.executeArbitrage.
  destruct (OrchestratorOps.getAvailableLiquidity c _); [|now left].
  destruct (OrchestratorOps.populateExecuteArbitrage c _ _); [|now left].
  destruct (FlashbotsExecutor.executeBundle _ _ _ _) as [[res bs] ids].
  destruct (FlashbotsExecutor.success res); [|now left].
  destruct (appendData db (OrchestratorOps.executions w) (OrchestratorOps.executionRow o now)) as [f'|] eqn:Ea;
    [|now left].
  right. exact (DatabaseProofs.appendData_suffix _ _ _ _ Ea).
Qed.

End DatabaseMaintenanceProofs.

(** ** PriceMonitor.getPriceDifference *)
Module PriceDifferenceProofs.
Import PriceDifference PriceDifferenceSpecs.
Local Open Scope Q_scope.

Lemma Qlt_bool_compat : forall x x' y y', x == x' -> y == y' -> Qlt_bool x y = Qlt_bool x' y'.
Proof.
  intros x x' y y' Hx Hy. unfold Qlt_bool. f_equal.
  destruct (Qle_bool y x) eqn:E1, (Qle_bool y' x') eqn:E2; try reflexivity.
  - apply Qle_bool_iff in E1. rewrite Hx, Hy in E1. apply Qle_bool_iff in E1. congruence.
  - apply Qle_bool_iff in E2. rewrite <- Hx, <- Hy in E2. apply Qle_bool_iff in E2. congruence.
Qed.

Lemma truthyPrice_nonzero : forall x q, truthyPrice x = Some q -> ~ q == 0.
Proof.
  intros [x|] q; cbn [truthyPrice]; [|discriminate].
  destruct (Qeq_bool x 0) eqn:E; [discriminate|].
  intros H; injection H as <-. intros Hq. apply Qeq_bool_iff in Hq. congruence.
Qed.

(** X28: swapping the two DEXes swaps [price1] and [price2] and gives the
    same [difference], [percentageDiff] and [arbitrageOpportunity]; one
    call returns [null] exactly when the other does. *)
Theorem getPriceDifference_swap : forall prices t0 t1 d1 d2,
  match getPriceDifference prices t0 t1 d1 d2, getPriceDifference prices t0 t1 d2 d1 with
  | Some a, Some b =>
      price1 a = price2 b /\ price2 a = price1 b /\
      difference a == difference b /\ percentageDiff a == percentageDiff b /\
      arbitrageOpportunity a = arbitrageOpportunity b
  | None, None => True
  | _, _ => False
  end.
Proof.
  intros prices t0 t1 d1 d2. unfold getPriceDifference.
  destruct (prices t0) as [p|]; [|exact I].
  destruct (sources p d1) as [s1|], (sources p d2) as [s2|]; try exact I.
  destruct (truthyPrice (s1 t1)) as [x|], (truthyPrice (s2 t1)) as [y|]; try exact I.
  cbn [price1 price2 difference percentageDiff arbitrageOpportunity].
  assert (Hd : Qabs (x - y) == Qabs (y - x)) by (rewrite Qabs_Qminus; reflexivity).
  assert (Hp : Qabs (x - y) / Qmin x y * 100 == Qabs (y - x) / Qmin y x * 100)
    by (rewrite Hd, Q.min_comm; reflexivity).
  split; [reflexivity|]. split; [reflexivity|]. split; [exact Hd|]. split; [exact Hp|].
  apply Qlt_bool_compat; [reflexivity|exact Hp].
Qed.

(** X29: a price of 0 is falsy, so [getPriceDifference] returns [null]
    rather than divide by zero: a returned [percentageDiff] is the
    [difference] over the smaller price, times 100, and it is never
    negative when both prices are positive. *)
Theorem getPriceDifference_ratio : forall prices t0 t1 d1 d2 r,
  getPriceDifference prices t0 t1 d1 d2 = Some r ->
  ~ price1 r == 0 /\ ~ price2 r == 0 /\
  percentageDiff r * Qmin (price1 r) (price2 r) == difference r * 100 /\
  (0 < price1 r -> 0 < price2 r -> 0 <= percentageDiff r).
Proof.
  intros prices t0 t1 d1 d2 r. unfold getPriceDifference.
  destruct (prices t0) as [p|]; [|discriminate].
  destruct (sources p d1) as [s1|], (sources p d2) as [s2|]; try discriminate.
  destruct (truthyPrice (s1 t1)) as [x|] eqn:Ex, (truthyPrice (s2 t1)) as [y|] eqn:Ey;
    try discriminate.
  intros H; injection H as <-.
  cbn [price1 price2 difference percentageDiff].
  apply truthyPrice_nonzero in Ex, Ey.
  assert (Hm : ~ Qmin x y == 0).
  { destruct (Q.min_spec x y) as [[_ E]|[_ E]]; rewrite E; assumption. }
  split; [exact Ex|]. split; [exact Ey|]. split.
  - field. exact Hm.
  - intros Hx Hy.
    assert (Hm0 : 0 < Qmin x y).
    { destruct (Q.min_spec x y) as [[_ E]|[_ E]]; rewrite E; assumption. }
    pose proof (Qabs_nonneg (x - y)) as Ha.
    pose proof (Qlt_le_weak _ _ (Qinv_lt_0_compat _ Hm0)) as Hi.
    apply Qmult_le_0_compat; [|discriminate].
    exact (Qmult_le_0_compat _ _ Ha Hi).
Qed.

Lemma getPriceDifference_ratio_witness :
  percentageDiff (match getPriceDifference wethPrices "WETH" "DAI" "uniswap_v2" "sushiswap" with
                  | Some r => r
                  | None => {| token0 := ""; token1 := ""; dex1 := ""; dex2 := ""; price1 := 0;
                               price2 := 0; difference := 0; percentageDiff := 0;
                               arbitrageOpportunity := false |}
                  end) * 2000 == 10 * 100.
Proof.
  assert (H : getPriceDifference wethPrices "WETH" "DAI" "uniswap_v2" "sushiswap" =
              Some {| token0 := "WETH"; token1 := "DAI"; dex1 := "uniswap_v2"; dex2 := "sushiswap";
                      price1 := 2000; price2 := 2010; difference := Qabs (2000 - 2010);
                      percentageDiff := Qabs (2000 - 2010) / Qmin 2000 2010 * 100;
                      arbitrageOpportunity := Qlt_bool (1 # 10) (Qabs (2000 - 2010) / Qmin 2000 2010 * 100) |})
    by reflexivity.
  destruct (getPriceDifference_ratio _ _ _ _ _ _ H) as [_ [_ [E _]]].
  rewrite H. cbn [percentageDiff price1 price2 difference] in *.
  exact E.
Defined.

End PriceDifferenceProofs.
